(** * BusTub buffer pool: clock replacer and buffer pool manager

    A shallow embedding of [src/buffer/clock_replacer.cpp] and
    [src/buffer/buffer_pool_manager.cpp], and the properties of the
    buffer pool that hold (or fail) on it.

    Conventions of the embedding:
    - frame ids and vector lengths are [nat] (they index [std::vector]s and
      the [pages_] array); an access outside a vector or through a null
      [Page*] is undefined behaviour in C++ and is an explicit fault here;
    - [size_t] counters that the code increments and decrements are [Z]
      with the 64-bit wrap-around written out;
    - the signed fields [pin_count_], [page_id_] and [chances] are [Z];
    - [while (true)] is a loop with fuel: one unit of fuel is one iteration
      of the loop body, and running out of fuel is the outcome "still
      looping", never a returned value. *)

From Stdlib Require Import ZArith List Bool Lia.
From Stdlib.Strings Require Import Byte.
From stdpp Require Import base option list gmap.

(** ** Machine integers *)

Definition size_t_wrap (z : Z) : Z := (z mod 2 ^ 64)%Z.

Definition frame_id_t := nat.
Definition page_id_t := Z.

(** ** ClockReplacer (clock_replacer.cpp) *)

Record FrameStat := mkFrameStat { is_in : bool; chances : Z }.

Record ClockReplacer := mkClockReplacer {
  num_pages_ : nat;
  clock_hand_ : nat;
  rb_ : list FrameStat;
  real_size_ : Z
}.

(** Modelled from the spec: the default [FrameStat()] of the header, which is
    not among the sources.  A slot starts outside the replacer (the
    constructor sets [real_size_] to 0) with no chance left. *)
Definition FrameStat_default : FrameStat := mkFrameStat false 0.

(** [ClockReplacer::ClockReplacer(size_t num_pages)] *)
Definition ClockReplacer_new (num_pages : nat) : ClockReplacer :=
  {| num_pages_ := num_pages;
     clock_hand_ := 0;
     rb_ := replicate num_pages FrameStat_default;
     real_size_ := 0 |}.

(** [ClockReplacer::Size] *)
Definition Size (r : ClockReplacer) : Z := real_size_ r.

Definition set_stat (r : ClockReplacer) (i : nat) (s : FrameStat) : ClockReplacer :=
  {| num_pages_ := num_pages_ r;
     clock_hand_ := clock_hand_ r;
     rb_ := <[i := s]> (rb_ r);
     real_size_ := real_size_ r |}.

Definition set_real_size (r : ClockReplacer) (z : Z) : ClockReplacer :=
  {| num_pages_ := num_pages_ r;
     clock_hand_ := clock_hand_ r;
     rb_ := rb_ r;
     real_size_ := z |}.

(** [clock_hand_ = (clock_hand_ + 1) % num_pages_] *)
Definition advance (r : ClockReplacer) : ClockReplacer :=
  {| num_pages_ := num_pages_ r;
     clock_hand_ := (clock_hand_ r + 1) mod num_pages_ r;
     rb_ := rb_ r;
     real_size_ := real_size_ r |}.

Inductive victim_result :=
| VictimReturns (found : option frame_id_t) (r : ClockReplacer)
    (** [return true] with [*frame_id] written, or [return false] *)
| VictimFault
    (** [rb_[clock_hand_]] outside the vector, or [% 0] *)
| VictimSpins.
    (** the fuel ran out with the loop still running *)

(** The body of [while (true)] in [ClockReplacer::Victim], run at most
    [fuel] times. *)
Fixpoint Victim_loop (fuel : nat) (r : ClockReplacer) : victim_result :=
  match fuel with
  | O => VictimSpins
  | S fuel' =>
      match rb_ r !! clock_hand_ r with
      | None => VictimFault
      | Some frame_stat =>
          if is_in frame_stat then
            if (0 <? chances frame_stat)%Z then
              if num_pages_ r =? 0 then VictimFault
              else Victim_loop fuel'
                     (advance (set_stat r (clock_hand_ r)
                                 (mkFrameStat true (chances frame_stat - 1))))
            else
              VictimReturns (Some (clock_hand_ r))
                (set_real_size
                   (set_stat r (clock_hand_ r)
                      (mkFrameStat false (chances frame_stat)))
                   (size_t_wrap (real_size_ r - 1)))
          else
            if num_pages_ r =? 0 then VictimFault
            else Victim_loop fuel' (advance r)
      end
  end.

(** [ClockReplacer::Victim] *)
Definition Victim (fuel : nat) (r : ClockReplacer) : victim_result :=
  if (Size r =? 0)%Z then VictimReturns None r else Victim_loop fuel r.

(** [ClockReplacer::Pin]; [None] is the access [rb_[frame_id]] outside the
    vector. *)
Definition Pin (frame_id : frame_id_t) (r : ClockReplacer) : option ClockReplacer :=
  match rb_ r !! frame_id with
  | None => None
  | Some frame_stat =>
      if is_in frame_stat then
        Some (set_real_size
                (set_stat r frame_id (mkFrameStat false (chances frame_stat)))
                (size_t_wrap (real_size_ r - 1)))
      else Some r
  end.

(** [ClockReplacer::Unpin] *)
Definition Unpin (frame_id : frame_id_t) (r : ClockReplacer) : option ClockReplacer :=
  match rb_ r !! frame_id with
  | None => None
  | Some frame_stat =>
      if negb (is_in frame_stat) then
        Some (set_real_size
                (set_stat r frame_id (mkFrameStat true 1))
                (size_t_wrap (real_size_ r + 1)))
      else Some r
  end.

(** ** Page frames and the disk manager (collaborators of the pool) *)

(** Modelled from the spec: [PAGE_SIZE] and [INVALID_PAGE_ID] of the common
    configuration header, which is not among the sources ("typically 4 KiB",
    "a distinguished sentinel"). *)
Definition PAGE_SIZE : nat := 4096.
Definition INVALID_PAGE_ID : page_id_t := (-1)%Z.

Definition page_bytes := list byte.
Definition zeroed : page_bytes := replicate PAGE_SIZE x00.

(** Modelled from the spec: the [Page] class of the storage layer, which is
    not among the sources.  A frame owns a byte buffer, the resident page id,
    a pin count and a dirty flag; it is born with pin count 0, clean and
    holding [INVALID_PAGE_ID]. *)
Record Page := mkPage {
  data_ : page_bytes;
  page_id_ : page_id_t;
  pin_count_ : Z;
  is_dirty_ : bool
}.

Definition Page_new : Page := mkPage zeroed INVALID_PAGE_ID 0%Z false.

(** Modelled from the spec: [Page::ResetAll], "overwrite resident page id,
    zero the byte buffer, set pin count to 0, clear dirty". *)
Definition ResetAll (new_page_id : page_id_t) (p : Page) : Page :=
  mkPage zeroed new_page_id 0%Z false.

Definition set_data (d : page_bytes) (p : Page) : Page :=
  mkPage d (page_id_ p) (pin_count_ p) (is_dirty_ p).

Definition add_pin_count (k : Z) (p : Page) : Page :=
  mkPage (data_ p) (page_id_ p) (pin_count_ p + k)%Z (is_dirty_ p).

Definition set_is_dirty (d : bool) (p : Page) : Page :=
  mkPage (data_ p) (page_id_ p) (pin_count_ p) d.

(** Modelled from the spec: the [DiskManager] interface, which is not among
    the sources.  The allocator hands out page ids monotonically; reads and
    writes move page-sized blocks; every call is recorded, oldest first. *)
Inductive disk_call :=
| CallAllocatePage (ret : page_id_t)
| CallDeallocatePage (page_id : page_id_t)
| CallReadPage (page_id : page_id_t)
| CallWritePage (page_id : page_id_t) (data : page_bytes).

Record DiskManager := mkDiskManager {
  next_page_id_ : page_id_t;
  blocks_ : gmap Z page_bytes;
  calls_ : list disk_call
}.

Definition DiskManager_new : DiskManager := mkDiskManager 0%Z ∅ [].

Definition AllocatePage (d : DiskManager) : page_id_t * DiskManager :=
  (next_page_id_ d,
   mkDiskManager (next_page_id_ d + 1)%Z (blocks_ d)
     (calls_ d ++ [CallAllocatePage (next_page_id_ d)])).

Definition DeallocatePage (page_id : page_id_t) (d : DiskManager) : DiskManager :=
  mkDiskManager (next_page_id_ d) (blocks_ d)
    (calls_ d ++ [CallDeallocatePage page_id]).

Definition ReadPage (page_id : page_id_t) (d : DiskManager) : page_bytes * DiskManager :=
  (default zeroed (blocks_ d !! page_id),
   mkDiskManager (next_page_id_ d) (blocks_ d)
     (calls_ d ++ [CallReadPage page_id])).

Definition WritePage (page_id : page_id_t) (data : page_bytes) (d : DiskManager) : DiskManager :=
  mkDiskManager (next_page_id_ d) (<[page_id := data]> (blocks_ d))
    (calls_ d ++ [CallWritePage page_id data]).

(** ** BufferPoolManager (buffer_pool_manager.cpp) *)

Record BufferPoolManager := mkBufferPoolManager {
  pool_size_ : nat;
  pages_ : list Page;
  replacer_ : ClockReplacer;
  free_list_ : list frame_id_t;
  page_table_ : gmap Z frame_id_t;
  disk_manager_ : DiskManager
}.

(** [BufferPoolManager::BufferPoolManager]; the log manager is held and never
    used, so it is not part of the state. *)
Definition BufferPoolManager_new (pool_size : nat) (disk_manager : DiskManager)
  : BufferPoolManager :=
  {| pool_size_ := pool_size;
     pages_ := replicate pool_size Page_new;
     replacer_ := ClockReplacer_new pool_size;
     free_list_ := seq 0 pool_size;
     page_table_ := ∅;
     disk_manager_ := disk_manager |}.

(** *** Outcomes of a member function *)

Inductive fault :=
| NullPointer   (** a member access through a null [Page*] *)
| OutOfRange.   (** an index outside [pages_] or [rb_], or [% 0] *)

Inductive outcome (A : Type) :=
| Returns (a : A) (b : BufferPoolManager)
| Undefined (f : fault)
| Spins.
Arguments Returns {A} a b.
Arguments Undefined {A} f.
Arguments Spins {A}.

Definition M (A : Type) : Type := BufferPoolManager -> outcome A.

Definition ret {A} (a : A) : M A := fun b => Returns a b.

Definition bind {A B} (m : M A) (k : A -> M B) : M B :=
  fun b =>
    match m b with
    | Returns a b' => k a b'
    | Undefined f => Undefined f
    | Spins => Spins
    end.

Notation "'let*' x ':=' c1 'in' c2" := (bind c1 (fun x => c2))
  (at level 10, x name, c1 at level 100, c2 at level 200).
Notation "'let*' ' pat ':=' c1 'in' c2" :=
  (bind c1 (fun x => match x with pat => c2 end))
  (at level 10, pat pattern, c1 at level 100, c2 at level 200).
Notation "c1 '>>' c2" := (bind c1 (fun _ => c2))
  (at level 100, c2 at level 200, right associativity).

Definition gets {A} (proj : BufferPoolManager -> A) : M A :=
  fun b => Returns (proj b) b.

Definition set_pages (ps : list Page) : M unit := fun b =>
  Returns tt (mkBufferPoolManager (pool_size_ b) ps (replacer_ b)
                (free_list_ b) (page_table_ b) (disk_manager_ b)).

Definition set_replacer (r : ClockReplacer) : M unit := fun b =>
  Returns tt (mkBufferPoolManager (pool_size_ b) (pages_ b) r
                (free_list_ b) (page_table_ b) (disk_manager_ b)).

Definition set_free_list (fl : list frame_id_t) : M unit := fun b =>
  Returns tt (mkBufferPoolManager (pool_size_ b) (pages_ b) (replacer_ b)
                fl (page_table_ b) (disk_manager_ b)).

Definition set_page_table (pt : gmap Z frame_id_t) : M unit := fun b =>
  Returns tt (mkBufferPoolManager (pool_size_ b) (pages_ b) (replacer_ b)
                (free_list_ b) pt (disk_manager_ b)).

Definition set_disk_manager (d : DiskManager) : M unit := fun b =>
  Returns tt (mkBufferPoolManager (pool_size_ b) (pages_ b) (replacer_ b)
                (free_list_ b) (page_table_ b) d).

Definition undefined {A} (f : fault) : M A := fun _ => Undefined f.

(** A [Page*] is [None] for [nullptr] and [Some f] for [&pages_[f]]. *)
Definition page_ptr := option frame_id_t.

(** Read through a [Page*]. *)
Definition deref (p : page_ptr) : M Page :=
  match p with
  | None => undefined NullPointer
  | Some f =>
      let* ps := gets pages_ in
      match ps !! f with
      | None => undefined OutOfRange
      | Some pg => ret pg
      end
  end.

(** Write through a [Page*]. *)
Definition update (p : page_ptr) (g : Page -> Page) : M unit :=
  let* pg := deref p in
  match p with
  | None => undefined NullPointer
  | Some f => let* ps := gets pages_ in set_pages (<[f := g pg]> ps)
  end.

Definition replacer_Pin (frame_id : frame_id_t) : M unit :=
  let* r := gets replacer_ in
  match Pin frame_id r with
  | None => undefined OutOfRange
  | Some r' => set_replacer r'
  end.

Definition replacer_Unpin (frame_id : frame_id_t) : M unit :=
  let* r := gets replacer_ in
  match Unpin frame_id r with
  | None => undefined OutOfRange
  | Some r' => set_replacer r'
  end.

Definition replacer_Victim (fuel : nat) : M (option frame_id_t) :=
  let* r := gets replacer_ in
  match Victim fuel r with
  | VictimReturns found r' => set_replacer r' >> ret found
  | VictimFault => undefined OutOfRange
  | VictimSpins => fun _ => Spins
  end.

Definition disk_AllocatePage : M page_id_t :=
  let* d := gets disk_manager_ in
  let '(page_id, d') := AllocatePage d in
  set_disk_manager d' >> ret page_id.

Definition disk_ReadPage (page_id : page_id_t) : M page_bytes :=
  let* d := gets disk_manager_ in
  let '(bytes, d') := ReadPage page_id d in
  set_disk_manager d' >> ret bytes.

Definition disk_WritePage (page_id : page_id_t) (data : page_bytes) : M unit :=
  let* d := gets disk_manager_ in set_disk_manager (WritePage page_id data d).

(** [page_table_.erase(key)] *)
Definition page_table_erase (page_id : page_id_t) : M unit :=
  let* pt := gets page_table_ in set_page_table (delete page_id pt).

(** [page_table_.emplace(key, value)]: an existing key keeps its value. *)
Definition page_table_emplace (page_id : page_id_t) (frame_id : frame_id_t) : M unit :=
  let* pt := gets page_table_ in
  match pt !! page_id with
  | Some _ => ret tt
  | None => set_page_table (<[page_id := frame_id]> pt)
  end.

(** [frame_id = free_list_.back(); free_list_.pop_back();] on a non-empty list *)
Definition free_list_pop_back : M frame_id_t :=
  let* fl := gets free_list_ in
  set_free_list (removelast fl) >> ret (List.last fl 0).

(** *** Member functions *)

(** The [else] branch of [FetchPageImpl] up to the choice of a frame: the
    result is [None] for the early [return nullptr], and otherwise the values
    of the locals [target_page] and [frame_id].  The free-list branch assigns
    [frame_id] only: [target_page] keeps its initial [nullptr]. *)
Definition Fetch_find_replacement (fuel : nat) : M (option (page_ptr * frame_id_t)) :=
  let* fl := gets free_list_ in
  if negb (length fl =? 0) then
    let* frame_id := free_list_pop_back in
    ret (Some (None, frame_id))
  else
    let* has_victim := replacer_Victim fuel in
    match has_victim with
    | None => ret None
    | Some frame_id =>
        let target_page : page_ptr := Some frame_id in
        let* victim_page := deref target_page in
        (if is_dirty_ victim_page
         then disk_WritePage (page_id_ victim_page) (data_ victim_page)
         else ret tt) >>
        page_table_erase (page_id_ victim_page) >>
        ret (Some (target_page, frame_id))
    end.

(** [BufferPoolManager::FetchPageImpl]; the result is the returned [Page*]. *)
Definition FetchPageImpl (fuel : nat) (page_id : page_id_t) : M page_ptr :=
  let* pt := gets page_table_ in
  let* found :=
    match pt !! page_id with
    | Some frame_id => ret (Some (Some frame_id, frame_id))
    | None =>
        let* replacement := Fetch_find_replacement fuel in
        match replacement with
        | None => ret None
        | Some (target_page, frame_id) =>
            update target_page (ResetAll page_id) >>
            page_table_emplace page_id frame_id >>
            deref target_page >>
            let* bytes := disk_ReadPage page_id in
            update target_page (set_data bytes) >>
            ret (Some (target_page, frame_id))
        end
    end in
  match found with
  | None => ret None
  | Some (target_page, frame_id) =>
      update target_page (add_pin_count 1) >>
      replacer_Pin frame_id >>
      ret target_page
  end.

(** [BufferPoolManager::UnpinPageImpl] *)
Definition UnpinPageImpl (page_id : page_id_t) (is_dirty : bool) : M bool :=
  let* pt := gets page_table_ in
  match pt !! page_id with
  | None => ret false
  | Some frame_id =>
      replacer_Unpin frame_id >>
      update (Some frame_id) (add_pin_count (-1)) >>
      ret true
  end.

(** [BufferPoolManager::FlushPageImpl] *)
Definition FlushPageImpl (page_id : page_id_t) : M bool :=
  let* pt := gets page_table_ in
  match pt !! page_id with
  | None => ret false
  | Some frame_id =>
      let* pg := deref (Some frame_id) in
      disk_WritePage page_id (data_ pg) >>
      update (Some frame_id) (set_is_dirty false) >>
      ret true
  end.

(** [BufferPoolManager::NewPageImpl]; the result is the value written to
    [*page_id] (if any) and the returned [Page*]. *)
Definition NewPageImpl (fuel : nat) : M (option page_id_t * page_ptr) :=
  let* fl := gets free_list_ in
  let* r := gets replacer_ in
  if (length fl =? 0) && (Size r =? 0)%Z then ret (None, None)
  else
    let* allocated_page_id := disk_AllocatePage in
    let* chosen :=
      if negb (length fl =? 0) then
        let* new_frame_id := free_list_pop_back in
        ret (Some (Some new_frame_id, new_frame_id))
      else
        let* has_victim := replacer_Victim fuel in
        match has_victim with
        | None => ret None
        | Some new_frame_id =>
            let target_page : page_ptr := Some new_frame_id in
            let* victim_page := deref target_page in
            (if is_dirty_ victim_page
             then disk_WritePage (page_id_ victim_page) (data_ victim_page)
             else ret tt) >>
            page_table_erase (page_id_ victim_page) >>
            ret (Some (target_page, new_frame_id))
        end in
    match chosen with
    | None => ret (None, None)
    | Some (target_page, new_frame_id) =>
        update target_page (ResetAll allocated_page_id) >>
        page_table_emplace allocated_page_id new_frame_id >>
        ret (Some allocated_page_id, target_page)
    end.

(** [BufferPoolManager::DeletePageImpl] *)
Definition DeletePageImpl (page_id : page_id_t) : M bool :=
  let* pt := gets page_table_ in
  match pt !! page_id with
  | Some frame_id =>
      let* current_page := deref (Some frame_id) in
      if negb (pin_count_ current_page =? 0)%Z then ret false
      else
        update (Some frame_id) (ResetAll INVALID_PAGE_ID) >>
        page_table_erase page_id >>
        let* fl := gets free_list_ in
        set_free_list (fl ++ [frame_id]) >>
        ret true
  | None => ret true
  end.

(** [BufferPoolManager::FlushAllPagesImpl]; the iteration order of the
    [unordered_map] is unspecified, here it is the order of [map_to_list]. *)
Definition FlushAllPagesImpl : M unit :=
  let* pt := gets page_table_ in
  foldr (fun entry rest => FlushPageImpl (fst entry) >> rest) (ret tt)
        (map_to_list pt).

(** ** Vocabulary of the statements *)

(** The number of slots of the ring that are in the replacer. *)
Fixpoint in_count (rb : list FrameStat) : nat :=
  match rb with
  | [] => 0
  | s :: rb' => (if is_in s then 1 else 0) + in_count rb'
  end.

(** The replacer states of the data model: the ring has one slot per frame,
    the hand is a frame id, the size is the number of slots in the replacer
    (and fits [size_t]), and no chance is negative. *)
Record replacer_wf (r : ClockReplacer) : Prop := {
  wf_ring : length (rb_ r) = num_pages_ r;
  wf_hand : num_pages_ r ≠ 0 -> clock_hand_ r < num_pages_ r;
  wf_size : real_size_ r = Z.of_nat (in_count (rb_ r));
  wf_fits : (Z.of_nat (num_pages_ r) < 2 ^ 64)%Z;
  wf_chances : forall j s, rb_ r !! j = Some s -> (0 <= chances s)%Z
}.

(** The second-chance policy: a slot in the replacer has chance 0 or 1. *)
Definition second_chance (r : ClockReplacer) : Prop :=
  forall j s, rb_ r !! j = Some s -> is_in s = true -> (chances s <= 1)%Z.

(** The slot under the clock hand in iteration [t] (counted from 0) of a
    sweep that starts in [r]: the hand moves one slot clockwise per
    iteration and wraps. *)
Definition slot_at (r : ClockReplacer) (t : nat) : nat :=
  (clock_hand_ r + t) mod num_pages_ r.

(** How many of the iterations before iteration [t] had the hand on slot
    [j]. *)
Fixpoint passes (r : ClockReplacer) (t : nat) (j : nat) : nat :=
  match t with
  | O => 0
  | S t' => passes r t' j + (if slot_at r t' =? j then 1 else 0)
  end.

(** The ring after [T] iterations none of which chose a victim: a slot in
    the replacer has lost one chance per pass of the hand, the other slots
    are as they were. *)
Definition swept (r : ClockReplacer) (T : nat) : list FrameStat :=
  imap (fun j s =>
          if is_in s
          then mkFrameStat true (chances s - Z.of_nat (passes r T j))
          else s)
       (rb_ r).

(** Iteration [t] finds nothing to evict: the slot under the hand is outside
    the replacer, or the earlier passes have left it a chance. *)
Definition spared (r : ClockReplacer) (t : nat) : Prop :=
  forall s, rb_ r !! slot_at r t = Some s -> is_in s = true ->
            (Z.of_nat (passes r t (slot_at r t)) < chances s)%Z.

(** Iteration [t] finds the slot under the hand in the replacer with its
    chances used up by the earlier passes. *)
Definition evictable (r : ClockReplacer) (t : nat) : Prop :=
  exists s, rb_ r !! slot_at r t = Some s /\ is_in s = true /\
            chances s = Z.of_nat (passes r t (slot_at r t)).

(** The replacer after [T] iterations none of which chose a victim. *)
Definition after_sweep (r : ClockReplacer) (T : nat) : ClockReplacer :=
  mkClockReplacer (num_pages_ r) (slot_at r T) (swept r T) (real_size_ r).

(** The decidable reading of "the slot under the hand in iteration [t] is in
    the replacer with no chance left". *)
Definition used_up (r : ClockReplacer) (t : nat) : bool :=
  match rb_ r !! slot_at r t with
  | Some s => is_in s && (chances s <=? Z.of_nat (passes r t (slot_at r t)))%Z
  | None => false
  end.

(** ** States used as examples *)

(** A ring of three slots with the hand on slot 1, which is outside the
    replacer; slots 0 and 2 are in it with their chance unused. *)
Definition ring_example : ClockReplacer :=
  mkClockReplacer 3 1
    [mkFrameStat true 1; mkFrameStat false 0; mkFrameStat true 1] 2.

(** Freshly constructed pools over an empty disk. *)
Definition pool1 : BufferPoolManager := BufferPoolManager_new 1 DiskManager_new.
Definition pool3 : BufferPoolManager := BufferPoolManager_new 3 DiskManager_new.

(** [pool1] after [NewPage]: page 0 sits in frame 0. *)
Definition pool_new_page : BufferPoolManager :=
  {| pool_size_ := 1;
     pages_ := [mkPage zeroed 0%Z 0%Z false];
     replacer_ := ClockReplacer_new 1;
     free_list_ := [];
     page_table_ := {[ 0%Z := 0 ]};
     disk_manager_ := mkDiskManager 1%Z ∅ [CallAllocatePage 0%Z] |}.

(** [pool1] after [NewPage] and [FetchPage(0)]: page 0 is pinned once. *)
Definition pool_pinned : BufferPoolManager :=
  {| pool_size_ := 1;
     pages_ := [mkPage zeroed 0%Z 1%Z false];
     replacer_ := ClockReplacer_new 1;
     free_list_ := [];
     page_table_ := {[ 0%Z := 0 ]};
     disk_manager_ := mkDiskManager 1%Z ∅ [CallAllocatePage 0%Z] |}.

(** [pool1] after [NewPage], [FetchPage(0)] and [UnpinPage(0, false)]: page 0
    is unpinned and its frame is in the replacer. *)
Definition pool_released : BufferPoolManager :=
  {| pool_size_ := 1;
     pages_ := [mkPage zeroed 0%Z 0%Z false];
     replacer_ := mkClockReplacer 1 0 [mkFrameStat true 1] 1;
     free_list_ := [];
     page_table_ := {[ 0%Z := 0 ]};
     disk_manager_ := mkDiskManager 1%Z ∅ [CallAllocatePage 0%Z] |}.

(** ** Vocabulary of the further properties *)


(** [page_table_.emplace(page_id, f)] as a function on the table. *)
Definition emplaced (page_id : Z) (f : nat) (pt : gmap Z nat) : gmap Z nat :=
  match pt !! page_id with
  | Some _ => pt
  | None => <[page_id := f]> pt
  end.

(** The pool states in which every index the code uses is in range: one
    page and one replacer slot per frame, a well-formed second-chance
    replacer, and frame ids below [pool_size_] in the free list and in the
    page table. *)
Record pool_wf (b : BufferPoolManager) : Prop := {
  pw_pages : length (pages_ b) = pool_size_ b;
  pw_ring : num_pages_ (replacer_ b) = pool_size_ b;
  pw_replacer : replacer_wf (replacer_ b);
  pw_policy : second_chance (replacer_ b);
  pw_free : Forall (fun f => f < pool_size_ b) (free_list_ b);
  pw_table : forall (page_id : Z) (f : nat),
      page_table_ b !! page_id = Some f -> f < pool_size_ b
}.


(** No frame is marked dirty. *)
Definition all_clean (b : BufferPoolManager) : Prop :=
  Forall (fun p => is_dirty_ p = false) (pages_ b).

(** The calls of the pool's public interface, each of which runs the member
    function of the same name. *)
Inductive call :=
| CallFetchPage (page_id : page_id_t)
| CallUnpinPage (page_id : page_id_t) (is_dirty : bool)
| CallFlushPage (page_id : page_id_t)
| CallNewPage
| CallDeletePage (page_id : page_id_t)
| CallFlushAllPages.

Definition run (fuel : nat) (c : call) : M unit :=
  match c with
  | CallFetchPage page_id => FetchPageImpl fuel page_id >> ret tt
  | CallUnpinPage page_id is_dirty => UnpinPageImpl page_id is_dirty >> ret tt
  | CallFlushPage page_id => FlushPageImpl page_id >> ret tt
  | CallNewPage => NewPageImpl fuel >> ret tt
  | CallDeletePage page_id => DeletePageImpl page_id >> ret tt
  | CallFlushAllPages => FlushAllPagesImpl
  end.

Definition flushes (c : call) : bool :=
  match c with
  | CallFlushPage _ | CallFlushAllPages => true
  | _ => false
  end.


(** The loop of [FlushAllPagesImpl] over the entries [l] of the page table. *)
Definition flush_entries (l : list (Z * nat)) : M unit :=
  foldr (fun entry rest => FlushPageImpl (fst entry) >> rest) (ret tt) l.


(** A pool of one frame whose page 0 is resident and dirty. *)
Definition pool_dirty : BufferPoolManager :=
  {| pool_size_ := 1;
     pages_ := [mkPage zeroed 0%Z 0%Z true];
     replacer_ := mkClockReplacer 1 0 [mkFrameStat true 1] 1;
     free_list_ := [];
     page_table_ := {[ 0%Z := 0 ]};
     disk_manager_ := mkDiskManager 1%Z ∅ [CallAllocatePage 0%Z] |}.

(** [pool_released] after a further [NewPage]: page 1 has replaced page 0. *)
Definition pool_replaced : BufferPoolManager :=
  {| pool_size_ := 1;
     pages_ := [mkPage zeroed 1%Z 0%Z false];
     replacer_ := mkClockReplacer 1 0 [mkFrameStat false 0] 0;
     free_list_ := [];
     page_table_ := {[ 1%Z := 0 ]};
     disk_manager_ :=
       mkDiskManager 2%Z ∅ [CallAllocatePage 0%Z; CallAllocatePage 1%Z] |}.

(** * Properties *)

(** ** The clock hand *)

Lemma slot_at_0 r : clock_hand_ r < num_pages_ r -> slot_at r 0 = clock_hand_ r.
Proof.
  intros H. unfold slot_at. rewrite Nat.add_0_r. by apply Nat.mod_small.
Qed.

Lemma slot_at_lt r t : num_pages_ r ≠ 0 -> slot_at r t < num_pages_ r.
Proof. intros H. unfold slot_at. by apply Nat.mod_upper_bound. Qed.

Lemma passes_mono r t t' j : t <= t' -> passes r t j <= passes r t' j.
Proof.
  induction 1 as [|t' _ IH]; [lia|]. simpl. lia.
Qed.

(** A pass counted at [t] was made in some earlier iteration, which had
    counted one pass less. *)
Lemma passes_pred r t j k :
  passes r t j = S k ->
  exists t', t' < t /\ slot_at r t' = j /\ passes r t' j = k.
Proof.
  induction t as [|t IH]; simpl; [discriminate|].
  destruct (Nat.eqb_spec (slot_at r t) j) as [E|E]; intros H.
  - exists t. split; [lia|]. split; [done|lia].
  - destruct IH as (t' & ? & ? & ?); [lia|]. exists t'. split; [lia|done].
Qed.

Lemma swept_lookup r T j :
  swept r T !! j =
  (fun s => if is_in s
            then mkFrameStat true (chances s - Z.of_nat (passes r T j))
            else s) <$> rb_ r !! j.
Proof. unfold swept. apply list_lookup_imap. Qed.

Lemma swept_0 r : swept r 0 = rb_ r.
Proof.
  apply list_eq. intros j. rewrite swept_lookup.
  destruct (rb_ r !! j) as [[[] c]|]; simpl; try done.
  by rewrite Z.sub_0_r.
Qed.

Lemma length_swept r T : length (swept r T) = length (rb_ r).
Proof. unfold swept. apply length_imap. Qed.

(** One iteration that does not choose a victim takes the replacer from [r]
    to [r']: the hand has moved one slot clockwise, and the slot it was on
    has lost a chance if it is in the replacer. *)
Section HandStep.
Variables r r' : ClockReplacer.
Hypothesis same_ring : num_pages_ r' = num_pages_ r.
Hypothesis hand_moved :
  clock_hand_ r' = (clock_hand_ r + 1) mod num_pages_ r.

(** Iteration [t] after the step is iteration [S t] before it. *)
Lemma slot_at_step t : slot_at r' t = slot_at r (S t).
Proof using same_ring hand_moved.
  unfold slot_at. rewrite same_ring, hand_moved.
  rewrite Nat.Div0.add_mod_idemp_l. f_equal. lia.
Qed.

Lemma passes_step t j :
  passes r (S t) j = (if slot_at r 0 =? j then 1 else 0) + passes r' t j.
Proof using same_ring hand_moved.
  induction t as [|t IH].
  - simpl. lia.
  - change (passes r (S (S t)) j)
      with (passes r (S t) j + (if slot_at r (S t) =? j then 1 else 0)).
    rewrite IH. simpl. rewrite slot_at_step. lia.
Qed.

Hypothesis hand_in_ring : clock_hand_ r < num_pages_ r.
Hypothesis chance_taken :
  forall j, rb_ r' !! j =
            (fun s => if is_in s && (clock_hand_ r =? j)
                      then mkFrameStat true (chances s - 1) else s)
              <$> rb_ r !! j.

Lemma swept_step T : swept r' T = swept r (S T).
Proof using All.
  apply list_eq. intros j.
  rewrite !swept_lookup, chance_taken, passes_step, slot_at_0 by done.
  destruct (rb_ r !! j) as [[i c]|]; simpl; [|done].
  destruct i; simpl; [|done].
  destruct (Nat.eqb_spec (clock_hand_ r) j); simpl; do 2 f_equal; lia.
Qed.

Lemma spared_step t : spared r (S t) -> spared r' t.
Proof using All.
  intros Hsp. unfold spared in *. intros s1.
  rewrite slot_at_step, chance_taken.
  set (j := slot_at r (S t)) in *.
  destruct (rb_ r !! j) as [[i c]|] eqn:E; simpl; [|done].
  intros [= <-] Hin. specialize (Hsp _ eq_refl).
  rewrite passes_step, slot_at_0 in Hsp by done.
  destruct i; simpl in *; [|done]. specialize (Hsp eq_refl).
  destruct (Nat.eqb_spec (clock_hand_ r) j); simpl in *; lia.
Qed.
End HandStep.

(** The rest of a sweep after one step from [r] to [r1], given the sweep
    from [r1] by the induction hypothesis [IH]. *)
Local Ltac sweep_on IH r r1 Hh Hrb Hsp :=
  rewrite IH;
  [ unfold after_sweep;
    by rewrite (slot_at_step r r1 eq_refl eq_refl),
               (swept_step r r1 eq_refl eq_refl Hh Hrb)
  | done
  | simpl; by apply Nat.mod_upper_bound
  | simpl; by rewrite ?length_insert
  | let t := fresh "t" in
    let Ht := fresh "Ht" in
    intros t Ht; apply (spared_step r r1 eq_refl eq_refl Hh Hrb);
    apply Hsp; lia ].

(** [T] iterations that each spare the slot under the hand take the loop
    from [r] to [after_sweep r T]. *)
Lemma sweep_run T : forall r fuel,
  num_pages_ r ≠ 0 ->
  clock_hand_ r < num_pages_ r ->
  length (rb_ r) = num_pages_ r ->
  (forall t, t < T -> spared r t) ->
  Victim_loop (T + fuel) r = Victim_loop fuel (after_sweep r T).
Proof.
  induction T as [|T IH]; intros r fuel Hn Hh Hlen Hsp.
  - simpl. unfold after_sweep. rewrite swept_0, slot_at_0 by done.
    by destruct r.
  - change (S T + fuel) with (S (T + fuel)). simpl.
    destruct (lookup_lt_is_Some_2 (rb_ r) (clock_hand_ r)) as [s Hs]; [lia|].
    rewrite Hs. apply Nat.eqb_neq in Hn as Hn0. rewrite Hn0.
    assert (H0 := Hsp 0 ltac:(lia) s). unfold spared in H0.
    rewrite slot_at_0 in H0 by done. specialize (H0 Hs).
    change (is_in s = true -> (0 < chances s)%Z) in H0.
    destruct (is_in s) eqn:Hin.
    + specialize (H0 eq_refl). apply Z.ltb_lt in H0 as H0b. rewrite H0b.
      set (r1 := advance (set_stat r (clock_hand_ r)
                            (mkFrameStat true (chances s - 1)))).
      assert (Hrb : forall j, rb_ r1 !! j =
             (fun s => if is_in s && (clock_hand_ r =? j)
                       then mkFrameStat true (chances s - 1) else s)
               <$> rb_ r !! j).
      { intros j. simpl. destruct (Nat.eqb_spec (clock_hand_ r) j) as [<-|Hne].
        - rewrite list_lookup_insert_eq by lia. rewrite Hs. simpl. by rewrite Hin.
        - rewrite list_lookup_insert_ne by done.
          destruct (rb_ r !! j) as [s'|]; simpl; [|done].
          by rewrite andb_false_r. }
      sweep_on IH r r1 Hh Hrb Hsp.
    + set (r1 := advance r).
      assert (Hrb : forall j, rb_ r1 !! j =
             (fun s => if is_in s && (clock_hand_ r =? j)
                       then mkFrameStat true (chances s - 1) else s)
               <$> rb_ r !! j).
      { intros j. simpl. destruct (rb_ r !! j) as [s'|] eqn:E; simpl; [|done].
        destruct (Nat.eqb_spec (clock_hand_ r) j) as [<-|Hne].
        - assert (s' = s) as -> by congruence. by rewrite Hin.
        - by rewrite andb_false_r. }
      sweep_on IH r r1 Hh Hrb Hsp.
Qed.

(** The iteration that chooses a victim. *)
Lemma victim_chosen r T fuel :
  num_pages_ r ≠ 0 ->
  clock_hand_ r < num_pages_ r ->
  length (rb_ r) = num_pages_ r ->
  (forall t, t < T -> spared r t) ->
  evictable r T ->
  T < fuel ->
  Victim_loop fuel r =
  VictimReturns (Some (slot_at r T))
    (mkClockReplacer (num_pages_ r) (slot_at r T)
       (<[slot_at r T := mkFrameStat false 0]> (swept r T))
       (size_t_wrap (real_size_ r - 1))).
Proof.
  intros Hn Hh Hlen Hsp (s & Hs & Hin & Hc) Hfuel.
  replace fuel with (T + S (fuel - S T)) by lia.
  rewrite sweep_run by done. simpl.
  rewrite swept_lookup, Hs. simpl. rewrite Hin. simpl.
  rewrite Hc, Z.sub_diag. done.
Qed.

(** Fewer iterations than the sweep needs leave the loop running. *)
Lemma victim_not_yet r fuel :
  num_pages_ r ≠ 0 ->
  clock_hand_ r < num_pages_ r ->
  length (rb_ r) = num_pages_ r ->
  (forall t, t < fuel -> spared r t) ->
  Victim_loop fuel r = VictimSpins.
Proof.
  intros Hn Hh Hlen Hsp.
  replace fuel with (fuel + 0) by lia. by rewrite sweep_run.
Qed.

Lemma Victim_loop_some fuel : forall r r',
  Victim_loop fuel r ≠ VictimReturns None r'.
Proof.
  induction fuel as [|fuel IH]; intros r r'; simpl; [done|].
  destruct (rb_ r !! clock_hand_ r) as [s|]; [|done].
  destruct (is_in s), (0 <? chances s)%Z, (num_pages_ r =? 0); try done; apply IH.
Qed.

(** Within one turn of the ring the hand reaches every slot. *)
Lemma hand_reaches r t j :
  j < num_pages_ r -> exists d, d < num_pages_ r /\ slot_at r (t + d) = j.
Proof.
  intros Hj. set (n := num_pages_ r) in *.
  set (a := (clock_hand_ r + t) mod n).
  assert (a < n) by (apply Nat.mod_upper_bound; lia).
  exists (if decide (a <= j) then j - a else j + n - a).
  unfold slot_at. fold n. rewrite Nat.add_assoc, <- Nat.Div0.add_mod_idemp_l.
  fold a. case_decide.
  - split; [lia|]. replace (a + (j - a)) with j by lia. by apply Nat.mod_small.
  - split; [lia|]. replace (a + (j + n - a)) with (j + 1 * n) by lia.
    rewrite Nat.Div0.mod_add. by apply Nat.mod_small.
Qed.

Lemma passes_turn r t j :
  j < num_pages_ r -> S (passes r t j) <= passes r (t + num_pages_ r) j.
Proof.
  intros Hj. destruct (hand_reaches r t j Hj) as (d & Hd & Hslot).
  transitivity (passes r (S (t + d)) j).
  - simpl. rewrite Hslot, Nat.eqb_refl.
    pose proof (passes_mono r t (t + d) j). lia.
  - apply passes_mono. lia.
Qed.

Lemma passes_turns r k j :
  j < num_pages_ r -> k <= passes r (k * num_pages_ r) j.
Proof.
  intros Hj. induction k as [|k IH]; [lia|].
  replace (S k * num_pages_ r) with (k * num_pages_ r + num_pages_ r) by lia.
  pose proof (passes_turn r (k * num_pages_ r) j Hj). lia.
Qed.

Lemma used_up_false r t : used_up r t = false -> spared r t.
Proof.
  unfold used_up, spared. intros H s Hs Hin. rewrite Hs, Hin in H.
  simpl in H. apply Z.leb_gt in H. done.
Qed.

(** A slot of the replacer with [c] chances is used up by the end of turn
    [c] of the hand. *)
Lemma used_up_by r j s :
  rb_ r !! j = Some s -> is_in s = true -> (0 <= chances s)%Z ->
  length (rb_ r) = num_pages_ r ->
  exists t, t < (Z.to_nat (chances s) + 1) * num_pages_ r /\ used_up r t = true.
Proof.
  intros Hs Hin Hc Hlen.
  assert (Hj : j < num_pages_ r)
    by (rewrite <- Hlen; by apply lookup_lt_Some in Hs).
  set (c := Z.to_nat (chances s)).
  destruct (hand_reaches r (c * num_pages_ r) j Hj) as (d & Hd & Hslot).
  exists (c * num_pages_ r + d). split; [lia|].
  unfold used_up. rewrite Hslot, Hs, Hin. simpl. apply Z.leb_le.
  pose proof (passes_turns r c j Hj).
  pose proof (passes_mono r (c * num_pages_ r) (c * num_pages_ r + d) j).
  lia.
Qed.

Lemma first_true (P : nat -> bool) n :
  P n = true ->
  exists m, m <= n /\ P m = true /\ forall k, k < m -> P k = false.
Proof.
  revert P. induction n as [|n IH]; intros P Hn.
  - exists 0. split; [lia|]. split; [done|]. lia.
  - destruct (P 0) eqn:H0.
    + exists 0. split; [lia|]. split; [done|]. lia.
    + destruct (IH (fun k => P (S k)) Hn) as (m & Hle & Hm & Hlt).
      exists (S m). split; [lia|]. split; [done|].
      intros [|k] Hk; [done|]. apply Hlt. lia.
Qed.

Lemma in_count_pos rb :
  0 < in_count rb -> exists j s, rb !! j = Some s /\ is_in s = true.
Proof.
  induction rb as [|s rb IH]; simpl; [lia|].
  destruct (is_in s) eqn:Hin.
  - intros _. by exists 0, s.
  - intros H. destruct IH as (j & s' & ? & ?); [lia|]. by exists (S j), s'.
Qed.

Lemma in_count_le rb : in_count rb <= length rb.
Proof. induction rb as [|s rb IH]; simpl; [lia|]. destruct (is_in s); lia. Qed.

(** The first iteration that finds a used-up slot chooses it: the slot has
    then exactly as many passes behind it as it had chances. *)
Lemma first_used_up r T :
  (forall j s, rb_ r !! j = Some s -> (0 <= chances s)%Z) ->
  used_up r T = true ->
  (forall t, t < T -> used_up r t = false) ->
  evictable r T.
Proof.
  intros Hc HT Hbefore. unfold used_up in HT. unfold evictable.
  destruct (rb_ r !! slot_at r T) as [s|] eqn:Hs; [|done].
  apply andb_true_iff in HT as [Hin Hle]. apply Z.leb_le in Hle.
  exists s. split; [done|]. split; [done|].
  destruct (passes r T (slot_at r T)) as [|k] eqn:Hp.
  - specialize (Hc _ _ Hs). lia.
  - destruct (passes_pred _ _ _ _ Hp) as (t' & Hlt & Hslot & Hk).
    pose proof (used_up_false r t' (Hbefore t' Hlt)) as Hsp.
    unfold spared in Hsp. rewrite Hslot, Hk in Hsp.
    specialize (Hsp s Hs Hin). lia.
Qed.

(** In a well-formed replacer that is not empty some iteration chooses a
    victim, within as many turns as the most patient slot needs. *)
Lemma victim_exists r :
  replacer_wf r -> real_size_ r ≠ 0%Z ->
  exists T j s,
    rb_ r !! j = Some s /\ is_in s = true /\
    T < (Z.to_nat (chances s) + 1) * num_pages_ r /\
    (forall t, t < T -> spared r t) /\ evictable r T.
Proof.
  intros [Hlen Hhand Hsize Hfits Hc] Hne.
  destruct (in_count_pos (rb_ r)) as (j & s & Hs & Hin); [lia|].
  destruct (used_up_by r j s Hs Hin (Hc _ _ Hs) Hlen) as (t0 & Ht0 & Hu).
  destruct (first_true (used_up r) t0 Hu) as (T & HT & HuT & Hbefore).
  exists T, j, s. repeat split; try done; [lia| |].
  - intros t Ht. apply used_up_false, Hbefore, Ht.
  - by apply first_used_up.
Qed.

Lemma size_t_wrap_small z : (0 <= z < 2 ^ 64)%Z -> size_t_wrap z = z.
Proof. intros H. unfold size_t_wrap. by apply Z.mod_small. Qed.

Lemma in_count_insert rb : forall i s s',
  rb !! i = Some s ->
  in_count (<[i := s']> rb) + (if is_in s then 1 else 0)
  = in_count rb + (if is_in s' then 1 else 0).
Proof.
  induction rb as [|x rb IH]; intros [|i] s s' H; simpl in *; try done.
  - injection H as ->. lia.
  - specialize (IH i s s' H). lia.
Qed.

Lemma in_count_replicate n : in_count (replicate n FrameStat_default) = 0.
Proof. induction n as [|n IH]; simpl; done. Qed.

Lemma ClockReplacer_new_wf n :
  (Z.of_nat n < 2 ^ 64)%Z -> replacer_wf (ClockReplacer_new n).
Proof.
  intros Hn. split; simpl.
  - apply length_replicate.
  - lia.
  - by rewrite in_count_replicate.
  - done.
  - intros j s [-> _]%lookup_replicate. done.
Qed.


(** Replacing one slot of a well-formed replacer, with the size adjusted by
    the code's wrapped arithmetic. *)
Lemma set_stat_wf r i s s' z :
  replacer_wf r ->
  rb_ r !! i = Some s ->
  (0 <= chances s')%Z ->
  (z = real_size_ r + (if is_in s' then 1 else 0) - (if is_in s then 1 else 0))%Z ->
  replacer_wf (set_real_size (set_stat r i s') (size_t_wrap z)).
Proof.
  intros [Hlen Hhand Hsize Hfits Hc] Hs Hc' Hz.
  pose proof (in_count_insert (rb_ r) i s s' Hs) as Hcount.
  pose proof (in_count_le (<[i := s']> (rb_ r))) as Hle.
  rewrite length_insert in Hle.
  split; simpl.
  - by rewrite length_insert.
  - done.
  - rewrite size_t_wrap_small; destruct (is_in s), (is_in s'); lia.
  - done.
  - intros j x Hx. destruct (decide (i = j)) as [<-|Hne].
    + rewrite list_lookup_insert_eq in Hx by (by apply lookup_lt_Some in Hs).
      by injection Hx as <-.
    + rewrite list_lookup_insert_ne in Hx by done. by apply (Hc j).
Qed.

Lemma Pin_wf r frame_id r' :
  replacer_wf r -> Pin frame_id r = Some r' -> replacer_wf r'.
Proof.
  intros Hwf. unfold Pin.
  destruct (rb_ r !! frame_id) as [s|] eqn:Hs; [|done].
  destruct (is_in s) eqn:Hin; intros [= <-]; [|done].
  apply (set_stat_wf r frame_id s); try done.
  - simpl. by apply (wf_chances r Hwf frame_id).
  - rewrite Hin. simpl. lia.
Qed.

Lemma Unpin_wf r frame_id r' :
  replacer_wf r -> Unpin frame_id r = Some r' -> replacer_wf r'.
Proof.
  intros Hwf. unfold Unpin.
  destruct (rb_ r !! frame_id) as [s|] eqn:Hs; [|done].
  destruct (is_in s) eqn:Hin; intros [= <-]; [done|].
  apply (set_stat_wf r frame_id s); try done.
  rewrite Hin. simpl. lia.
Qed.

Lemma advance_wf r :
  replacer_wf r -> num_pages_ r ≠ 0 -> replacer_wf (advance r).
Proof.
  intros [Hlen Hhand Hsize Hfits Hc] Hn. split; simpl; try done.
  intros _. by apply Nat.mod_upper_bound.
Qed.

Lemma Victim_loop_wf fuel : forall r found r',
  replacer_wf r -> real_size_ r ≠ 0%Z ->
  Victim_loop fuel r = VictimReturns found r' -> replacer_wf r'.
Proof.
  induction fuel as [|fuel IH]; intros r found r' Hwf Hne; simpl; [done|].
  destruct (rb_ r !! clock_hand_ r) as [s|] eqn:Hs; [|done].
  destruct (is_in s) eqn:Hin.
  - destruct (0 <? chances s)%Z eqn:Hpos.
    + destruct (Nat.eqb_spec (num_pages_ r) 0) as [|Hn]; [done|].
      apply IH; [|done]. apply advance_wf; [|done].
      apply Z.ltb_lt in Hpos.
      pose proof (set_stat_wf r (clock_hand_ r) s
                    (mkFrameStat true (chances s - 1)) (real_size_ r) Hwf Hs) as H.
      rewrite size_t_wrap_small in H.
      * destruct r. apply H; simpl; [lia|]. rewrite Hin. lia.
      * destruct Hwf as [Hlen _ Hsize Hfits _].
        pose proof (in_count_le (rb_ r)). lia.
    + intros [= <- <-]. apply (set_stat_wf r (clock_hand_ r) s); try done.
      * simpl. by apply (wf_chances r Hwf (clock_hand_ r)).
      * rewrite Hin. simpl. lia.
  - destruct (Nat.eqb_spec (num_pages_ r) 0) as [|Hn]; [done|].
    apply IH; [|done]. by apply advance_wf.
Qed.

Lemma Victim_wf fuel r found r' :
  replacer_wf r -> Victim fuel r = VictimReturns found r' -> replacer_wf r'.
Proof.
  intros Hwf. unfold Victim, Size.
  destruct (Z.eqb_spec (real_size_ r) 0) as [|Hne].
  - by intros [= <- <-].
  - by apply Victim_loop_wf.
Qed.

Lemma set_stat_second_chance r i s' :
  second_chance r -> (chances s' <= 1)%Z -> second_chance (set_stat r i s').
Proof.
  intros Hsc Hc j x. simpl. intros Hx Hin.
  destruct (decide (i = j)) as [<-|Hne].
  - apply list_lookup_insert_Some in Hx as [(_ & <- & _)|[? _]]; done.
  - rewrite list_lookup_insert_ne in Hx by done. by apply (Hsc j).
Qed.

Lemma Pin_second_chance r frame_id r' :
  second_chance r -> Pin frame_id r = Some r' -> second_chance r'.
Proof.
  intros Hsc. unfold Pin.
  destruct (rb_ r !! frame_id) as [s|] eqn:Hs; [|done].
  destruct (is_in s) eqn:Hin; intros [= <-]; [|done].
  intros j x. simpl. intros Hx Hinx.
  destruct (decide (frame_id = j)) as [<-|Hne].
  - apply list_lookup_insert_Some in Hx as [(_ & <- & _)|[? _]]; done.
  - rewrite list_lookup_insert_ne in Hx by done. by apply (Hsc j).
Qed.

Lemma Unpin_second_chance r frame_id r' :
  second_chance r -> Unpin frame_id r = Some r' -> second_chance r'.
Proof.
  intros Hsc. unfold Unpin.
  destruct (rb_ r !! frame_id) as [s|] eqn:Hs; [|done].
  destruct (is_in s) eqn:Hin; intros [= <-]; [done|].
  by apply (set_stat_second_chance r frame_id (mkFrameStat true 1)).
Qed.

Lemma Victim_loop_second_chance fuel : forall r found r',
  second_chance r ->
  Victim_loop fuel r = VictimReturns found r' -> second_chance r'.
Proof.
  induction fuel as [|fuel IH]; intros r found r' Hsc; simpl; [done|].
  destruct (rb_ r !! clock_hand_ r) as [s|] eqn:Hs; [|done].
  destruct (is_in s) eqn:Hin.
  - destruct (0 <? chances s)%Z eqn:Hpos.
    + destruct (num_pages_ r =? 0); [done|]. apply IH.
      apply (set_stat_second_chance r (clock_hand_ r) (mkFrameStat true (chances s - 1)));
        [done|]. simpl. specialize (Hsc _ _ Hs Hin). lia.
    + intros [= <- <-]. intros j x. simpl. intros Hx Hinx.
      destruct (decide (clock_hand_ r = j)) as [<-|Hne].
      * apply list_lookup_insert_Some in Hx as [(_ & <- & _)|[? _]]; done.
      * rewrite list_lookup_insert_ne in Hx by done. by apply (Hsc j).
  - destruct (num_pages_ r =? 0); [done|]. by apply IH.
Qed.

Lemma Victim_second_chance fuel r found r' :
  second_chance r -> Victim fuel r = VictimReturns found r' -> second_chance r'.
Proof.
  intros Hsc. unfold Victim. destruct (Size r =? 0)%Z.
  - by intros [= <- <-].
  - by apply Victim_loop_second_chance.
Qed.

Lemma wf_size_bounds r :
  replacer_wf r -> real_size_ r ≠ 0%Z ->
  (0 < real_size_ r < 2 ^ 64)%Z /\ num_pages_ r ≠ 0 /\ clock_hand_ r < num_pages_ r.
Proof.
  intros [Hlen Hhand Hsize Hfits Hc] Hne.
  pose proof (in_count_le (rb_ r)).
  assert (num_pages_ r ≠ 0) by lia.
  split; [lia|]. split; [done|]. by apply Hhand.
Qed.

(** C7. [Victim] returns none exactly when the replacer size is 0.
    Otherwise the hand sweeps clockwise from where it stands, every slot of
    the replacer that it passes loses one chance, and the victim is the slot
    under the hand in the first iteration [T] that finds a slot of the
    replacer with no chance left: that slot leaves the replacer, the size
    drops by one, and the hand stays on the victim. *)
Theorem Victim_first_without_chance (r : ClockReplacer) :
  replacer_wf r ->
  (forall fuel,
     (exists r', Victim fuel r = VictimReturns None r') <-> Size r = 0%Z) /\
  (Size r = 0%Z -> forall fuel, Victim fuel r = VictimReturns None r) /\
  (Size r ≠ 0%Z ->
   exists T,
     (forall t, t < T -> spared r t) /\
     evictable r T /\
     forall fuel, T < fuel ->
       Victim fuel r =
       VictimReturns (Some (slot_at r T))
         {| num_pages_ := num_pages_ r;
            clock_hand_ := slot_at r T;
            rb_ := <[slot_at r T := mkFrameStat false 0]> (swept r T);
            real_size_ := real_size_ r - 1 |}).
Proof.
  intros Hwf. unfold Victim, Size. split; [|split].
  - intros fuel. destruct (Z.eqb_spec (real_size_ r) 0) as [H0|Hne].
    + split; [done|]. intros _. by exists r.
    + split; [|done]. intros [r' H]. by apply Victim_loop_some in H.
  - intros ->. done.
  - intros Hne. apply Z.eqb_neq in Hne as Hb. rewrite Hb.
    destruct (wf_size_bounds r Hwf Hne) as (Hsz & Hn & Hh).
    destruct (victim_exists r Hwf Hne) as (T & j & s & _ & _ & _ & Hsp & Hev).
    exists T. split; [done|]. split; [done|]. intros fuel Hfuel.
    rewrite (victim_chosen r T fuel Hn Hh (wf_ring r Hwf) Hsp Hev Hfuel).
    rewrite size_t_wrap_small by lia. done.
Qed.

Lemma ring_example_wf : replacer_wf ring_example.
Proof.
  split; simpl; try done; try lia.
  intros [|[|[|j]]] s; simpl; intros [= <-]; simpl; lia.
Defined.

Lemma ring_example_second_chance : second_chance ring_example.
Proof.
  intros [|[|[|j]]] s; simpl; intros [= <-]; simpl; intros; lia.
Defined.

Lemma Victim_first_without_chance_witness :
  replacer_wf ring_example /\
  ((forall fuel,
     (exists r', Victim fuel ring_example = VictimReturns None r')
     <-> Size ring_example = 0%Z) /\
  (Size ring_example = 0%Z ->
   forall fuel, Victim fuel ring_example = VictimReturns None ring_example) /\
  (Size ring_example ≠ 0%Z ->
   exists T,
     (forall t, t < T -> spared ring_example t) /\
     evictable ring_example T /\
     forall fuel, T < fuel ->
       Victim fuel ring_example =
       VictimReturns (Some (slot_at ring_example T))
         {| num_pages_ := num_pages_ ring_example;
            clock_hand_ := slot_at ring_example T;
            rb_ := <[slot_at ring_example T := mkFrameStat false 0]>
                     (swept ring_example T);
            real_size_ := real_size_ ring_example - 1 |})).
Proof.
  split; [exact ring_example_wf|].
  exact (Victim_first_without_chance ring_example ring_example_wf).
Defined.

(** C8. In a replacer that is not empty and follows the second-chance
    policy, [Victim] returns a victim, and the loop body runs at most
    [2 * num_pages_] times: after exactly [k] iterations, no fewer. *)
Theorem Victim_within_two_turns (r : ClockReplacer) :
  replacer_wf r -> second_chance r -> (0 < Size r)%Z ->
  exists k v r',
    k <= 2 * num_pages_ r /\
    (forall fuel, fuel < k -> Victim fuel r = VictimSpins) /\
    (forall fuel, k <= fuel -> Victim fuel r = VictimReturns (Some v) r').
Proof.
  intros Hwf Hsc Hpos. unfold Victim, Size in *.
  assert (Hne : real_size_ r ≠ 0%Z) by lia.
  apply Z.eqb_neq in Hne as Hb. rewrite Hb.
  destruct (wf_size_bounds r Hwf Hne) as (Hsz & Hn & Hh).
  destruct (victim_exists r Hwf Hne) as (T & j & s & Hs & Hin & HT & Hsp & Hev).
  specialize (Hsc j s Hs Hin). pose proof (wf_chances r Hwf j s Hs) as Hc.
  exists (S T), (slot_at r T). eexists. split; [|split].
  - assert (Z.to_nat (chances s) + 1 <= 2) by lia. nia.
  - intros fuel Hfuel. apply victim_not_yet; [done|done|apply Hwf|].
    intros t Ht. apply Hsp. lia.
  - intros fuel Hfuel. apply victim_chosen; [done|done|apply Hwf|done|done|lia].
Qed.

Lemma Victim_within_two_turns_witness :
  replacer_wf ring_example /\ second_chance ring_example /\
  (0 < Size ring_example)%Z /\
  exists k v r',
    k <= 2 * num_pages_ ring_example /\
    (forall fuel, fuel < k -> Victim fuel ring_example = VictimSpins) /\
    (forall fuel, k <= fuel -> Victim fuel ring_example = VictimReturns (Some v) r').
Proof.
  split; [exact ring_example_wf|]. split; [exact ring_example_second_chance|].
  split; [reflexivity|].
  exact (Victim_within_two_turns ring_example ring_example_wf
           ring_example_second_chance eq_refl).
Defined.

(** The sweep on [ring_example]: the hand skips slot 1, takes the chances of
    slots 2 and 0, skips slot 1 again and evicts slot 2 in its fifth
    iteration. *)
Example ring_example_victim :
  Victim 4 ring_example = VictimSpins /\
  Victim 5 ring_example =
  VictimReturns (Some 2)
    (mkClockReplacer 3 2
       [mkFrameStat true 0; mkFrameStat false 0; mkFrameStat false 0] 1).
Proof. split; reflexivity. Qed.

(** ** The buffer pool *)

(** The example states are states of a pool of one frame that the public
    operations reach from construction. *)
Lemma pool_new_page_reached :
  NewPageImpl 2 pool1 = Returns (Some 0%Z, Some 0) pool_new_page.
Proof. vm_compute. reflexivity. Qed.

Lemma pool_pinned_reached :
  FetchPageImpl 2 0%Z pool_new_page = Returns (Some 0) pool_pinned.
Proof. vm_compute. reflexivity. Qed.

Lemma pool_released_reached :
  UnpinPageImpl 0%Z false pool_pinned = Returns true pool_released.
Proof. vm_compute. reflexivity. Qed.

(** A miss that finds a free frame never assigns [target_page]: the call
    [target_page->ResetAll(page_id)] goes through the initial [nullptr]. *)
Lemma FetchPageImpl_free_frame fuel page_id b :
  page_table_ b !! page_id = None ->
  free_list_ b ≠ [] ->
  FetchPageImpl fuel page_id b = Undefined NullPointer.
Proof.
  intros Hpt Hfl. unfold FetchPageImpl, bind, gets. rewrite Hpt.
  unfold Fetch_find_replacement, bind, gets.
  destruct (free_list_ b) as [|f fl] eqn:E; [done|]. reflexivity.
Qed.

(** C1 (fails on the code). In a freshly constructed pool of three frames
    page 0 is not in the page table and the free list is [0; 1; 2], and
    [FetchPage(0)] does not return a handle to frame 2: it dereferences the
    null [target_page]. *)
Theorem FetchPage_free_frame_null_handle :
  page_table_ pool3 !! 0%Z = None /\
  free_list_ pool3 = [0; 1; 2] /\
  forall fuel, FetchPageImpl fuel 0%Z pool3 = Undefined NullPointer.
Proof.
  split; [reflexivity|]. split; [reflexivity|].
  intros fuel. by apply FetchPageImpl_free_frame.
Qed.

(** C2 (fails on the code). In a pool of one frame, [NewPage],
    [FetchPage(0)] twice and [UnpinPage(0, false)] once leave page 0 with pin
    count 1 and its frame in the replacer; the next [NewPage] chooses that
    frame as victim and evicts page 0 while the pin is still held. *)
Theorem pinned_page_in_replacer_and_evicted :
  exists b b',
    (NewPageImpl 2 >> FetchPageImpl 2 0%Z >> FetchPageImpl 2 0%Z >>
     UnpinPageImpl 0%Z false) pool1 = Returns true b /\
    page_table_ b !! 0%Z = Some 0 /\
    pin_count_ <$> pages_ b !! 0 = Some 1%Z /\
    is_in <$> rb_ (replacer_ b) !! 0 = Some true /\
    NewPageImpl 2 b = Returns (Some 1%Z, Some 0) b' /\
    page_table_ b' !! 0%Z = None /\
    page_id_ <$> pages_ b' !! 0 = Some 1%Z.
Proof.
  do 2 eexists. split; [vm_compute; reflexivity|].
  do 3 (split; [reflexivity|]).
  split; [vm_compute; reflexivity|]. split; reflexivity.
Qed.

(** C3 (fails on the code). Page 0 is resident, pinned once and clean;
    [UnpinPage(0, true)] returns true and leaves the dirty flag false, not
    [false || true]; the page is then evicted by [NewPage] without any
    [WritePage]. *)
Theorem UnpinPage_ignores_is_dirty :
  exists b b',
    UnpinPageImpl 0%Z true pool_pinned = Returns true b /\
    is_dirty_ <$> pages_ pool_pinned !! 0 = Some false /\
    is_dirty_ <$> pages_ b !! 0 = Some false /\
    NewPageImpl 2 b = Returns (Some 1%Z, Some 0) b' /\
    calls_ (disk_manager_ b') = [CallAllocatePage 0%Z; CallAllocatePage 1%Z].
Proof.
  do 2 eexists. split; [vm_compute; reflexivity|].
  do 2 (split; [reflexivity|]).
  split; [vm_compute; reflexivity|]. reflexivity.
Qed.

(** C4 (fails on the code). [NewPage] on a fresh pool of three frames
    succeeds with page 0 in frame 2, and the returned frame has pin count 0;
    the replacer is as it was, [Pin] has not been called on it, and the
    frame is exactly as [ResetAll] left it.  The same holds when the frame
    comes from the replacer. *)
Theorem NewPage_returns_unpinned_frame :
  (exists b,
     NewPageImpl 6 pool3 = Returns (Some 0%Z, Some 2) b /\
     pages_ b !! 2 = Some (ResetAll 0%Z Page_new) /\
     pin_count_ <$> pages_ b !! 2 = Some 0%Z /\
     replacer_ b = replacer_ pool3) /\
  (exists b,
     NewPageImpl 2 pool_released = Returns (Some 1%Z, Some 0) b /\
     pin_count_ <$> pages_ b !! 0 = Some 0%Z).
Proof.
  split; eexists; (split; [vm_compute; reflexivity|]); repeat split; reflexivity.
Qed.

(** [DeletePageImpl] never reaches the disk manager. *)
Lemma DeletePageImpl_disk_untouched page_id b ok b' :
  DeletePageImpl page_id b = Returns ok b' ->
  disk_manager_ b' = disk_manager_ b.
Proof.
  unfold DeletePageImpl, bind, gets.
  destruct (page_table_ b !! page_id) as [f|]; [|by intros [= <- <-]].
  unfold deref, bind, gets. destruct (pages_ b !! f) as [pg|]; [|done].
  simpl. destruct (pin_count_ pg =? 0)%Z; simpl; [|by intros [= <- <-]].
  unfold update, deref, bind, gets. simpl.
  destruct (pages_ b !! f); [|done]. simpl. by intros [= <- <-].
Qed.

(** C5 (fails on the code). [DeletePage] of a page that is not resident
    (returns true), of a pinned page (returns false) and of an unpinned
    resident page (returns true) all leave the disk manager's record of
    calls as it was: no [DeallocatePage] is made. *)
Theorem DeletePage_makes_no_DeallocatePage :
  DeletePageImpl 7%Z pool_new_page = Returns true pool_new_page /\
  DeletePageImpl 0%Z pool_pinned = Returns false pool_pinned /\
  (exists b,
     DeletePageImpl 0%Z pool_new_page = Returns true b /\
     calls_ (disk_manager_ b) = [CallAllocatePage 0%Z]) /\
  calls_ (DeallocatePage 0%Z (disk_manager_ pool_new_page))
    = [CallAllocatePage 0%Z; CallDeallocatePage 0%Z].
Proof.
  split; [vm_compute; reflexivity|]. split; [vm_compute; reflexivity|].
  split; [|reflexivity]. eexists. split; [vm_compute; reflexivity|]. reflexivity.
Qed.

(** C6 (fails on the code). Page 0 is resident in frame 0 with pin count 0
    and frame 0 is in the replacer; [DeletePage(0)] returns true, removes the
    page from the page table and pushes frame 0 onto the free list, and frame
    0 is still in the replacer, whose size is still 1. *)
Theorem DeletePage_leaves_frame_in_replacer :
  exists b,
    DeletePageImpl 0%Z pool_released = Returns true b /\
    page_table_ b !! 0%Z = None /\
    free_list_ b = [0] /\
    is_in <$> rb_ (replacer_ b) !! 0 = Some true /\
    Size (replacer_ b) = 1%Z.
Proof.
  eexists. split; [vm_compute; reflexivity|]. repeat split; reflexivity.
Qed.

(** A consequence in a pool of two frames: the deleted page's frame is
    handed out again by [NewPage] (page 1) while still registered in the
    replacer, and once the free list is used up the next [NewPage] evicts
    page 1, which no caller has unpinned. *)
Example stale_replacer_entry_evicts_new_page :
  exists b b',
    (NewPageImpl 4 >> FetchPageImpl 4 0%Z >> UnpinPageImpl 0%Z false >>
     DeletePageImpl 0%Z >> NewPageImpl 4 >> NewPageImpl 4)
      (BufferPoolManager_new 2 DiskManager_new) = Returns (Some 2%Z, Some 0) b /\
    page_table_ b !! 1%Z = Some 1 /\
    free_list_ b = [] /\
    is_in <$> rb_ (replacer_ b) !! 1 = Some true /\
    NewPageImpl 4 b = Returns (Some 3%Z, Some 1) b' /\
    page_table_ b' !! 1%Z = None.
Proof.
  do 2 eexists. split; [vm_compute; reflexivity|].
  do 3 (split; [reflexivity|]).
  split; [vm_compute; reflexivity|]. reflexivity.
Qed.

(** C9. When the requested page is not resident, the free list is empty and
    the replacer size is 0, [FetchPage] returns the null handle and the pool
    is exactly as before; so does [NewPage], whose unchanged state includes
    the disk manager: no page id has been allocated. *)
Theorem exhausted_pool_unchanged
    (fuel : nat) (page_id : page_id_t) (b : BufferPoolManager) :
  page_table_ b !! page_id = None ->
  free_list_ b = [] ->
  Size (replacer_ b) = 0%Z ->
  FetchPageImpl fuel page_id b = Returns None b /\
  NewPageImpl fuel b = Returns (None, None) b.
Proof.
  intros Hpt Hfl Hsz. split.
  - unfold FetchPageImpl, bind, gets. rewrite Hpt.
    unfold Fetch_find_replacement, bind, gets. rewrite Hfl. simpl.
    unfold replacer_Victim, bind, gets, Victim. rewrite Hsz. simpl.
    by destruct b.
  - unfold NewPageImpl, bind, gets. rewrite Hfl, Hsz. reflexivity.
Qed.

Lemma exhausted_pool_unchanged_witness :
  FetchPageImpl 2 7%Z pool_pinned = Returns None pool_pinned /\
  NewPageImpl 2 pool_pinned = Returns (None, None) pool_pinned.
Proof.
  apply (exhausted_pool_unchanged 2 7%Z pool_pinned); reflexivity.
Defined.

(** C10. [UnpinPage] of a resident page returns true, calls the replacer's
    [Unpin] on the frame and lowers the pin count by one whatever it was (a
    pin count of 0 becomes -1); nothing else changes, and no fault or false
    result is produced. *)
Theorem UnpinPage_decrements_unconditionally
    (page_id : page_id_t) (is_dirty : bool) (b : BufferPoolManager)
    (frame_id : frame_id_t) (pg : Page) (frame_stat : FrameStat) :
  page_table_ b !! page_id = Some frame_id ->
  pages_ b !! frame_id = Some pg ->
  rb_ (replacer_ b) !! frame_id = Some frame_stat ->
  exists r',
    Unpin frame_id (replacer_ b) = Some r' /\
    UnpinPageImpl page_id is_dirty b =
    Returns true
      {| pool_size_ := pool_size_ b;
         pages_ := <[frame_id := mkPage (data_ pg) (page_id_ pg)
                                   (pin_count_ pg - 1)%Z (is_dirty_ pg)]> (pages_ b);
         replacer_ := r';
         free_list_ := free_list_ b;
         page_table_ := page_table_ b;
         disk_manager_ := disk_manager_ b |}.
Proof.
  intros Hpt Hpg Hrb.
  destruct (Unpin frame_id (replacer_ b)) as [r'|] eqn:Hun.
  2: { unfold Unpin in Hun. rewrite Hrb in Hun. by destruct (is_in frame_stat). }
  exists r'. split; [done|].
  unfold UnpinPageImpl, bind, gets. rewrite Hpt.
  unfold replacer_Unpin, bind, gets. rewrite Hun. simpl.
  unfold update, deref, bind, gets. simpl. rewrite Hpg. reflexivity.
Qed.

Lemma UnpinPage_decrements_unconditionally_witness :
  exists r',
    Unpin 0 (replacer_ pool_new_page) = Some r' /\
    UnpinPageImpl 0%Z true pool_new_page =
    Returns true
      {| pool_size_ := 1;
         pages_ := [mkPage zeroed 0%Z (-1)%Z false];
         replacer_ := r';
         free_list_ := [];
         page_table_ := page_table_ pool_new_page;
         disk_manager_ := disk_manager_ pool_new_page |}.
Proof.
  apply (UnpinPage_decrements_unconditionally 0%Z true pool_new_page 0
           (mkPage zeroed 0%Z 0%Z false) FrameStat_default); reflexivity.
Defined.

(** * Further properties *)

(** ** The replacer as a set of frames *)

(** The loop changes no membership flag before it returns, and on return it
    clears the flag of the slot it returns, which was set. *)
Lemma Victim_loop_membership fuel : forall r (v : nat) r',
  Victim_loop fuel r = VictimReturns (Some v) r' ->
  is_in <$> rb_ r !! v = Some true /\
  forall j, is_in <$> rb_ r' !! j =
            if decide (j = v) then Some false else is_in <$> rb_ r !! j.
Proof.
  induction fuel as [|fuel IH]; intros r v r'; simpl; [done|].
  destruct (rb_ r !! clock_hand_ r) as [s|] eqn:Hs; [|done].
  assert (Hlt : clock_hand_ r < length (rb_ r)) by (by apply lookup_lt_Some in Hs).
  destruct (is_in s) eqn:Hin.
  - destruct (0 <? chances s)%Z.
    + destruct (num_pages_ r =? 0); [done|]. intros H.
      apply IH in H as [Hv Hrest]. simpl in *.
      assert (Hsame : forall j,
                 is_in <$> <[clock_hand_ r := mkFrameStat true (chances s - 1)]>
                             (rb_ r) !! j
                 = is_in <$> rb_ r !! j).
      { intros j. destruct (decide (clock_hand_ r = j)) as [<-|Hne].
        - rewrite list_lookup_insert_eq, Hs by done. simpl. by rewrite Hin.
        - by rewrite list_lookup_insert_ne. }
      split; [by rewrite <- Hsame|].
      intros j. rewrite Hrest. case_decide; [done|]. apply Hsame.
    + intros [= <- <-]. cbn [rb_ set_real_size set_stat]. rewrite Hs.
      split; [simpl; by rewrite Hin|].
      intros j. case_decide as Hj.
      * subst j. by rewrite list_lookup_insert_eq.
      * by rewrite list_lookup_insert_ne.
  - destruct (num_pages_ r =? 0); [done|]. intros H.
    by apply IH in H.
Qed.

Lemma Victim_membership fuel r (v : nat) r' :
  Victim fuel r = VictimReturns (Some v) r' ->
  is_in <$> rb_ r !! v = Some true /\
  forall j, is_in <$> rb_ r' !! j =
            if decide (j = v) then Some false else is_in <$> rb_ r !! j.
Proof.
  unfold Victim. destruct (Size r =? 0)%Z; [done|]. apply Victim_loop_membership.
Qed.

Lemma Victim_loop_num_pages fuel : forall r found r',
  Victim_loop fuel r = VictimReturns found r' -> num_pages_ r' = num_pages_ r.
Proof.
  induction fuel as [|fuel IH]; intros r found r'; simpl; [done|].
  destruct (rb_ r !! clock_hand_ r) as [s|]; [|done].
  destruct (is_in s), (0 <? chances s)%Z, (num_pages_ r =? 0); try done;
    try (intros H; by apply IH in H); by intros [= <- <-].
Qed.

Lemma Victim_num_pages fuel r found r' :
  Victim fuel r = VictimReturns found r' -> num_pages_ r' = num_pages_ r.
Proof.
  unfold Victim. destruct (Size r =? 0)%Z; [by intros [= <- <-]|].
  apply Victim_loop_num_pages.
Qed.

Lemma Pin_membership (frame_id : nat) r r' :
  Pin frame_id r = Some r' ->
  num_pages_ r' = num_pages_ r /\ clock_hand_ r' = clock_hand_ r /\
  frame_id < length (rb_ r) /\
  forall j, is_in <$> rb_ r' !! j =
            if decide (j = frame_id) then Some false else is_in <$> rb_ r !! j.
Proof.
  unfold Pin, frame_id_t. destruct (rb_ r !! frame_id) as [s|] eqn:Hs; [|done].
  assert (Hlt : frame_id < length (rb_ r)) by (by apply lookup_lt_Some in Hs).
  destruct (is_in s) eqn:Hin; intros [= <-];
    (split; [done|]); (split; [done|]); (split; [exact Hlt|]); intros j;
    cbn [rb_ set_real_size set_stat].
  - case_decide as Hj.
    + subst j. by rewrite list_lookup_insert_eq.
    + by rewrite list_lookup_insert_ne.
  - case_decide as Hj; [|done]. subst j. rewrite Hs. simpl. by rewrite Hin.
Qed.

Lemma Unpin_membership (frame_id : nat) r r' :
  Unpin frame_id r = Some r' ->
  num_pages_ r' = num_pages_ r /\ clock_hand_ r' = clock_hand_ r /\
  frame_id < length (rb_ r) /\
  forall j, is_in <$> rb_ r' !! j =
            if decide (j = frame_id) then Some true else is_in <$> rb_ r !! j.
Proof.
  unfold Unpin, frame_id_t. destruct (rb_ r !! frame_id) as [s|] eqn:Hs; [|done].
  assert (Hlt : frame_id < length (rb_ r)) by (by apply lookup_lt_Some in Hs).
  destruct (is_in s) eqn:Hin; intros [= <-];
    (split; [done|]); (split; [done|]); (split; [exact Hlt|]); intros j;
    cbn [rb_ set_real_size set_stat].
  - case_decide as Hj; [|done]. subst j. rewrite Hs. simpl. by rewrite Hin.
  - case_decide as Hj.
    + subst j. by rewrite list_lookup_insert_eq.
    + by rewrite list_lookup_insert_ne.
Qed.

(** X1. What [Victim] returns is a frame of the replacer, and it removes that
    frame and no other. *)
Theorem Victim_evicts_a_member (fuel : nat) (r r' : ClockReplacer) (v : nat) :
  Victim fuel r = VictimReturns (Some v) r' ->
  is_in <$> rb_ r !! v = Some true /\
  is_in <$> rb_ r' !! v = Some false /\
  forall j, j ≠ v -> is_in <$> rb_ r' !! j = is_in <$> rb_ r !! j.
Proof.
  intros [Hv Hrest]%Victim_membership. split; [done|]. split.
  - rewrite Hrest. by case_decide.
  - intros j Hj. rewrite Hrest. by case_decide.
Qed.

Lemma Victim_evicts_a_member_witness :
  is_in <$> rb_ ring_example !! 2 = Some true /\
  is_in <$> rb_ (mkClockReplacer 3 2
       [mkFrameStat true 0; mkFrameStat false 0; mkFrameStat false 0] 1) !! 2
    = Some false /\
  forall j, j ≠ 2 ->
    is_in <$> rb_ (mkClockReplacer 3 2
       [mkFrameStat true 0; mkFrameStat false 0; mkFrameStat false 0] 1) !! j
    = is_in <$> rb_ ring_example !! j.
Proof.
  apply (Victim_evicts_a_member 5 ring_example). reflexivity.
Defined.

(** X2. A frame that has been pinned is not what the next [Victim] returns. *)
Theorem Victim_spares_pinned_frame
    (fuel : nat) (frame_id v : nat) (r r1 r2 : ClockReplacer) :
  Pin frame_id r = Some r1 ->
  Victim fuel r1 = VictimReturns (Some v) r2 ->
  v ≠ frame_id.
Proof.
  intros (_ & _ & _ & Hpin)%Pin_membership [Hv _]%Victim_membership ->.
  rewrite Hpin in Hv. by case_decide.
Qed.

Lemma Victim_spares_pinned_frame_witness :
  Pin 2 ring_example =
    Some (mkClockReplacer 3 1
            [mkFrameStat true 1; mkFrameStat false 0; mkFrameStat false 1] 1) /\
  Victim 6 (mkClockReplacer 3 1
              [mkFrameStat true 1; mkFrameStat false 0; mkFrameStat false 1] 1) =
    VictimReturns (Some 0)
      (mkClockReplacer 3 0
         [mkFrameStat false 0; mkFrameStat false 0; mkFrameStat false 1] 0) /\
  0 ≠ 2.
Proof.
  split; [reflexivity|]. split; [reflexivity|].
  apply (Victim_spares_pinned_frame 6 2 0 ring_example
           (mkClockReplacer 3 1
              [mkFrameStat true 1; mkFrameStat false 0; mkFrameStat false 1] 1)
           (mkClockReplacer 3 0
              [mkFrameStat false 0; mkFrameStat false 0; mkFrameStat false 1] 0));
    reflexivity.
Defined.

(** ** The paths of the member functions *)


Local Ltac run_step :=
  repeat progress
    (unfold bind, gets, ret, deref, update, set_pages, set_replacer,
       set_free_list, set_page_table, set_disk_manager, replacer_Pin,
       replacer_Unpin, replacer_Victim, disk_AllocatePage, disk_ReadPage,
       disk_WritePage, page_table_erase, page_table_emplace,
       free_list_pop_back, undefined;
     cbn [pool_size_ pages_ replacer_ free_list_ page_table_ disk_manager_
          AllocatePage ReadPage WritePage fst snd]);
  unfold frame_id_t, page_id_t, page_ptr in *.

Local Ltac run_pages :=
  repeat first
    [ progress run_step
    | rewrite list_insert_insert_eq
    | rewrite list_lookup_insert_eq by (rewrite ?length_insert; done) ].

(** Case analysis on the first lookup left in the goal. *)
Local Ltac split_lookup :=
  match goal with
  | |- context [@lookup ?K ?A ?M ?I ?k ?m] => destruct (@lookup K A M I k m) eqn:?
  end.

Lemma FetchPageImpl_hit fuel page_id b (f : nat) pg r' :
  page_table_ b !! page_id = Some f ->
  pages_ b !! f = Some pg ->
  Pin f (replacer_ b) = Some r' ->
  FetchPageImpl fuel page_id b =
  Returns (Some f)
    {| pool_size_ := pool_size_ b;
       pages_ := <[f := add_pin_count 1 pg]> (pages_ b);
       replacer_ := r';
       free_list_ := free_list_ b;
       page_table_ := page_table_ b;
       disk_manager_ := disk_manager_ b |}.
Proof.
  intros Hpt Hpg Hpin. unfold FetchPageImpl. run_step. rewrite Hpt.
  run_step. rewrite Hpg. run_step. rewrite Hpin. done.
Qed.

Lemma FetchPageImpl_no_victim fuel page_id b r' :
  page_table_ b !! page_id = None ->
  free_list_ b = [] ->
  Victim fuel (replacer_ b) = VictimReturns None r' ->
  FetchPageImpl fuel page_id b =
  Returns None
    {| pool_size_ := pool_size_ b;
       pages_ := pages_ b;
       replacer_ := r';
       free_list_ := free_list_ b;
       page_table_ := page_table_ b;
       disk_manager_ := disk_manager_ b |}.
Proof.
  intros Hpt Hfl Hv. unfold FetchPageImpl, Fetch_find_replacement. run_step.
  rewrite Hpt, Hfl. simpl. run_step. rewrite Hv. run_step. by rewrite Hfl.
Qed.

Lemma FetchPageImpl_evict fuel page_id b (v : nat) r1 r2 pg :
  page_table_ b !! page_id = None ->
  free_list_ b = [] ->
  Victim fuel (replacer_ b) = VictimReturns (Some v) r1 ->
  pages_ b !! v = Some pg ->
  Pin v r1 = Some r2 ->
  let d1 := if is_dirty_ pg
            then WritePage (page_id_ pg) (data_ pg) (disk_manager_ b)
            else disk_manager_ b in
  FetchPageImpl fuel page_id b =
  Returns (Some v)
    {| pool_size_ := pool_size_ b;
       pages_ := <[v := mkPage (fst (ReadPage page_id d1)) page_id 1 false]> (pages_ b);
       replacer_ := r2;
       free_list_ := [];
       page_table_ := <[page_id := v]> (delete (page_id_ pg) (page_table_ b));
       disk_manager_ := snd (ReadPage page_id d1) |}.
Proof.
  intros Hpt Hfl Hv Hpg Hpin d1.
  assert (Hlt : v < length (pages_ b)) by (by apply lookup_lt_Some in Hpg).
  assert (Hnew : delete (page_id_ pg) (page_table_ b) !! page_id = None).
  { apply lookup_delete_None. by right. }
  unfold FetchPageImpl, Fetch_find_replacement. run_step.
  rewrite Hpt, Hfl. simpl. run_step. rewrite Hv. run_step.
  rewrite Hpg.
  subst d1. destruct (is_dirty_ pg); run_step; rewrite Hpg; run_step;
    rewrite Hnew; run_pages; rewrite Hpin; run_pages; by rewrite Hfl.
Qed.

Lemma NewPageImpl_free fuel b fl (f : nat) pg :
  free_list_ b = fl ++ [f] ->
  pages_ b !! f = Some pg ->
  let id := next_page_id_ (disk_manager_ b) in
  NewPageImpl fuel b =
  Returns (Some id, Some f)
    {| pool_size_ := pool_size_ b;
       pages_ := <[f := ResetAll id pg]> (pages_ b);
       replacer_ := replacer_ b;
       free_list_ := fl;
       page_table_ := emplaced id f (page_table_ b);
       disk_manager_ := snd (AllocatePage (disk_manager_ b)) |}.
Proof.
  intros Hfl Hpg id. subst id. unfold NewPageImpl, emplaced. run_step.
  rewrite Hfl. rewrite length_app, Nat.add_comm. simpl. run_step.
  rewrite Hfl, last_last, removelast_last. run_step. rewrite Hpg. run_step.
  by split_lookup.
Qed.

Lemma NewPageImpl_evict fuel b (v : nat) r1 pg :
  free_list_ b = [] ->
  Size (replacer_ b) ≠ 0%Z ->
  Victim fuel (replacer_ b) = VictimReturns (Some v) r1 ->
  pages_ b !! v = Some pg ->
  let id := next_page_id_ (disk_manager_ b) in
  let d0 := snd (AllocatePage (disk_manager_ b)) in
  let d1 := if is_dirty_ pg then WritePage (page_id_ pg) (data_ pg) d0 else d0 in
  NewPageImpl fuel b =
  Returns (Some id, Some v)
    {| pool_size_ := pool_size_ b;
       pages_ := <[v := ResetAll id pg]> (pages_ b);
       replacer_ := r1;
       free_list_ := [];
       page_table_ := emplaced id v (delete (page_id_ pg) (page_table_ b));
       disk_manager_ := d1 |}.
Proof.
  intros Hfl Hsz Hv Hpg id d0 d1. subst id d0 d1.
  apply Z.eqb_neq in Hsz. unfold NewPageImpl, emplaced. run_step.
  rewrite Hfl, Hsz. simpl. run_step. rewrite Hv. run_step. rewrite Hpg.
  destruct (is_dirty_ pg); run_step; rewrite Hpg; run_step;
    rewrite Hfl; by split_lookup.
Qed.

Lemma UnpinPageImpl_resident page_id is_dirty b (f : nat) pg r' :
  page_table_ b !! page_id = Some f ->
  pages_ b !! f = Some pg ->
  Unpin f (replacer_ b) = Some r' ->
  UnpinPageImpl page_id is_dirty b =
  Returns true
    {| pool_size_ := pool_size_ b;
       pages_ := <[f := add_pin_count (-1) pg]> (pages_ b);
       replacer_ := r';
       free_list_ := free_list_ b;
       page_table_ := page_table_ b;
       disk_manager_ := disk_manager_ b |}.
Proof.
  intros Hpt Hpg Hun. unfold UnpinPageImpl. run_step. rewrite Hpt. run_step.
  rewrite Hun. run_step. rewrite Hpg. run_step. done.
Qed.

Lemma FlushPageImpl_resident page_id b (f : nat) pg :
  page_table_ b !! page_id = Some f ->
  pages_ b !! f = Some pg ->
  FlushPageImpl page_id b =
  Returns true
    {| pool_size_ := pool_size_ b;
       pages_ := <[f := set_is_dirty false pg]> (pages_ b);
       replacer_ := replacer_ b;
       free_list_ := free_list_ b;
       page_table_ := page_table_ b;
       disk_manager_ := WritePage page_id (data_ pg) (disk_manager_ b) |}.
Proof.
  intros Hpt Hpg. unfold FlushPageImpl. run_step. rewrite Hpt. run_step.
  rewrite Hpg. run_step. rewrite Hpg. run_step. done.
Qed.

Lemma DeletePageImpl_unpinned page_id b (f : nat) pg :
  page_table_ b !! page_id = Some f ->
  pages_ b !! f = Some pg ->
  pin_count_ pg = 0%Z ->
  DeletePageImpl page_id b =
  Returns true
    {| pool_size_ := pool_size_ b;
       pages_ := <[f := ResetAll INVALID_PAGE_ID pg]> (pages_ b);
       replacer_ := replacer_ b;
       free_list_ := free_list_ b ++ [f];
       page_table_ := delete page_id (page_table_ b);
       disk_manager_ := disk_manager_ b |}.
Proof.
  intros Hpt Hpg Hpin. unfold DeletePageImpl. run_step. rewrite Hpt. run_step.
  rewrite Hpg. run_step. rewrite Hpin. simpl. run_step. rewrite Hpg. run_step.
  done.
Qed.

Lemma DeletePageImpl_pinned page_id b (f : nat) pg :
  page_table_ b !! page_id = Some f ->
  pages_ b !! f = Some pg ->
  pin_count_ pg ≠ 0%Z ->
  DeletePageImpl page_id b = Returns false b.
Proof.
  intros Hpt Hpg Hpin. apply Z.eqb_neq in Hpin.
  unfold DeletePageImpl. run_step. rewrite Hpt. run_step.
  rewrite Hpg. run_step. rewrite Hpin. done.
Qed.

Lemma not_resident_paths page_id is_dirty b :
  page_table_ b !! page_id = None ->
  UnpinPageImpl page_id is_dirty b = Returns false b /\
  FlushPageImpl page_id b = Returns false b /\
  DeletePageImpl page_id b = Returns true b.
Proof.
  intros Hpt. unfold UnpinPageImpl, FlushPageImpl, DeletePageImpl. run_step.
  by rewrite Hpt.
Qed.

(** ** The replacer states reached from the constructor *)

(** With two turns of fuel [Victim] returns in every well-formed
    second-chance replacer: none when it is empty, a frame otherwise. *)
Lemma Victim_enough_fuel r fuel :
  replacer_wf r -> second_chance r -> 2 * num_pages_ r <= fuel ->
  (Size r = 0%Z /\ Victim fuel r = VictimReturns None r) \/
  (Size r ≠ 0%Z /\ exists (v : nat) r', Victim fuel r = VictimReturns (Some v) r').
Proof.
  intros Hwf Hsc Hfuel. unfold Victim, Size.
  destruct (Z.eqb_spec (real_size_ r) 0) as [H0|Hne]; [by left|right].
  split; [done|].
  destruct (wf_size_bounds r Hwf Hne) as (Hsz & Hn & Hh).
  destruct (victim_exists r Hwf Hne) as (T & j & s & Hs & Hin & HT & Hsp & Hev).
  specialize (Hsc j s Hs Hin). pose proof (wf_chances r Hwf j s Hs) as Hc.
  exists (slot_at r T). eexists.
  apply victim_chosen; [done|done|apply Hwf|done|done|].
  assert (Z.to_nat (chances s) + 1 <= 2) by lia. nia.
Qed.

Lemma in_count_zero rb : forall (j : nat) s,
  in_count rb = 0 -> rb !! j = Some s -> is_in s = false.
Proof.
  induction rb as [|x rb IH]; intros [|j] s; simpl; try done.
  - intros H [= <-]. destruct (is_in x); [done|done].
  - intros H. apply IH. destruct (is_in x); [done|lia].
Qed.







(** X5. In an empty replacer, a frame that is unpinned is the frame the
    next [Victim] returns, and the replacer is empty again. *)
Theorem Unpin_then_Victim_returns_frame (frame_id : nat) (r : ClockReplacer) :
  replacer_wf r ->
  Size r = 0%Z ->
  frame_id < num_pages_ r ->
  exists r1 r2,
    Unpin frame_id r = Some r1 /\
    Size r2 = 0%Z /\
    forall fuel, 2 * num_pages_ r <= fuel ->
      Victim fuel r1 = VictimReturns (Some frame_id) r2.
Proof.
  intros Hwf Hsz Hlt. unfold Size in *.
  pose proof (wf_ring r Hwf) as Hring. pose proof (wf_size r Hwf) as Hsize.
  destruct (lookup_lt_is_Some_2 (rb_ r) frame_id) as [s Hs]; [lia|].
  assert (Hcount : in_count (rb_ r) = 0) by lia.
  pose proof (in_count_zero _ _ _ Hcount Hs) as Hin.
  destruct (Unpin frame_id r) as [r1|] eqn:Hun.
  2: { unfold Unpin, frame_id_t in Hun. rewrite Hs, Hin in Hun. done. }
  pose proof (Unpin_wf _ _ _ Hwf Hun) as Hwf1.
  pose proof (Unpin_membership _ _ _ Hun) as (Hn1 & Hh1 & _ & Hmem).
  assert (Hsz1 : real_size_ r1 = 1%Z).
  { unfold Unpin, frame_id_t in Hun. rewrite Hs, Hin in Hun. simpl in Hun.
    injection Hun as <-. simpl. rewrite Hsz. reflexivity. }
  assert (Hsc1 : second_chance r1).
  { unfold Unpin, frame_id_t in Hun. rewrite Hs, Hin in Hun. simpl in Hun.
    injection Hun as <-. intros j x. simpl. intros Hx Hinx.
    destruct (decide (frame_id = j)) as [<-|Hne].
    - rewrite list_lookup_insert_eq in Hx by lia. by injection Hx as <-.
    - rewrite list_lookup_insert_ne in Hx by done.
      rewrite (in_count_zero _ _ _ Hcount Hx) in Hinx. done. }
  assert (Hne : real_size_ r1 ≠ 0%Z) by lia.
  destruct (wf_size_bounds r1 Hwf1 Hne) as (Hb & Hnz & Hh).
  destruct (victim_exists r1 Hwf1 Hne) as (T & j & x & Hx & Hinx & HT & Hsp & Hev).
  specialize (Hsc1 j x Hx Hinx). pose proof (wf_chances r1 Hwf1 j x Hx) as Hc.
  assert (HT2 : T < 2 * num_pages_ r).
  { rewrite <- Hn1. assert (Z.to_nat (chances x) + 1 <= 2) by lia. nia. }
  pose proof (victim_chosen r1 T (S T) Hnz Hh (wf_ring r1 Hwf1) Hsp Hev
                ltac:(lia)) as Hrun.
  assert (Hv : slot_at r1 T = frame_id).
  { apply Victim_loop_membership in Hrun as [Hv _]. rewrite Hmem in Hv.
    case_decide as Hd; [done|].
    destruct (rb_ r !! slot_at r1 T) as [y|] eqn:Hy; [|done].
    simpl in Hv. rewrite (in_count_zero _ _ _ Hcount Hy) in Hv. done. }
  exists r1. eexists. split; [done|]. split; [|].
  2: { intros fuel Hfuel. unfold Victim, Size.
       apply Z.eqb_neq in Hne as ->. rewrite <- Hv.
       apply victim_chosen; [done|done|apply Hwf1|done|done|lia]. }
  simpl. rewrite Hsz1. reflexivity.
Qed.

Lemma Unpin_then_Victim_returns_frame_witness :
  replacer_wf (ClockReplacer_new 3) /\
  exists r1 r2,
    Unpin 1 (ClockReplacer_new 3) = Some r1 /\
    Size r2 = 0%Z /\
    forall fuel, 2 * num_pages_ (ClockReplacer_new 3) <= fuel ->
      Victim fuel r1 = VictimReturns (Some 1) r2.
Proof.
  split; [apply ClockReplacer_new_wf; reflexivity|].
  apply (Unpin_then_Victim_returns_frame 1 (ClockReplacer_new 3));
    [apply ClockReplacer_new_wf; reflexivity|reflexivity|simpl; lia].
Defined.

(** ** Invariants of the pool *)

Lemma pool_wf_change b ps r fl pt d :
  pool_wf b ->
  length ps = length (pages_ b) ->
  replacer_wf r -> second_chance r ->
  num_pages_ r = num_pages_ (replacer_ b) ->
  Forall (fun f => f < pool_size_ b) fl ->
  (forall (page_id : Z) (f : nat), pt !! page_id = Some f -> f < pool_size_ b) ->
  pool_wf (mkBufferPoolManager (pool_size_ b) ps r fl pt d) /\
  pool_size_ (mkBufferPoolManager (pool_size_ b) ps r fl pt d) = pool_size_ b.
Proof.
  intros [Hp Hr Hwf Hsc Hfl Hpt] Hlen Hwf' Hsc' Hnum Hfl' Hpt'.
  split; [|done]. split; simpl; try done; congruence.
Qed.

Lemma pool_wf_page b (f : nat) :
  pool_wf b -> f < pool_size_ b -> exists pg, pages_ b !! f = Some pg.
Proof.
  intros Hwf Hf. apply lookup_lt_is_Some_2. by rewrite (pw_pages b Hwf).
Qed.

Lemma pool_wf_slot b (f : nat) :
  pool_wf b -> f < pool_size_ b -> exists s, rb_ (replacer_ b) !! f = Some s.
Proof.
  intros Hwf Hf. apply lookup_lt_is_Some_2.
  by rewrite (wf_ring _ (pw_replacer b Hwf)), (pw_ring b Hwf).
Qed.

Lemma Pin_defined (f : nat) r s : rb_ r !! f = Some s -> is_Some (Pin f r).
Proof. intros Hs. unfold Pin, frame_id_t. rewrite Hs. by destruct (is_in s). Qed.

Lemma Unpin_defined (f : nat) r s : rb_ r !! f = Some s -> is_Some (Unpin f r).
Proof. intros Hs. unfold Unpin, frame_id_t. rewrite Hs. by destruct (is_in s). Qed.

Lemma emplaced_bound n page_id (f : nat) (pt : gmap Z nat) :
  f < n ->
  (forall (p : Z) (g : nat), pt !! p = Some g -> g < n) ->
  forall (p : Z) (g : nat), emplaced page_id f pt !! p = Some g -> g < n.
Proof.
  intros Hf Hpt p g. unfold emplaced.
  destruct (pt !! page_id) eqn:E; [apply Hpt|].
  intros [[_ <-]|[_ H]]%lookup_insert_Some; [done|by eapply Hpt].
Qed.

Lemma delete_bound n page_id (pt : gmap Z nat) :
  (forall (p : Z) (g : nat), pt !! p = Some g -> g < n) ->
  forall (p : Z) (g : nat), delete page_id pt !! p = Some g -> g < n.
Proof. intros Hpt p g [_ H]%lookup_delete_Some. by eapply Hpt. Qed.

Lemma snoc_cases {A} (l : list A) : l = [] \/ exists l' x, l = l' ++ [x].
Proof.
  induction l as [|a l IH] using rev_ind; [by left|right]. by exists l, a.
Qed.

Lemma NewPageImpl_exhausted fuel b :
  free_list_ b = [] -> Size (replacer_ b) = 0%Z ->
  NewPageImpl fuel b = Returns (None, None) b.
Proof.
  intros Hfl Hsz. unfold NewPageImpl. run_step. by rewrite Hfl, Hsz.
Qed.

Lemma all_clean_insert b (f : nat) pg n r fl pt d :
  all_clean b -> is_dirty_ pg = false ->
  all_clean (mkBufferPoolManager n (<[f := pg]> (pages_ b)) r fl pt d).
Proof. intros Hc Hpg. by apply Forall_insert. Qed.

Lemma all_clean_page b (f : nat) pg :
  all_clean b -> pages_ b !! f = Some pg -> is_dirty_ pg = false.
Proof. intros Hc Hpg. by apply (Forall_lookup_1 _ _ _ _ Hc Hpg). Qed.

(** The loop of [FlushAllPagesImpl] over entries of the page table: every
    entry is flushed, under its own page id and with the bytes of its frame. *)
Lemma flush_entries_spec l : forall b,
  (forall (page_id : Z) (f : nat),
      (page_id, f) ∈ l ->
      page_table_ b !! page_id = Some f /\ f < length (pages_ b)) ->
  exists ps d,
    flush_entries l b =
    Returns tt (mkBufferPoolManager (pool_size_ b) ps (replacer_ b)
                  (free_list_ b) (page_table_ b) d) /\
    length ps = length (pages_ b) /\
    next_page_id_ d = next_page_id_ (disk_manager_ b) /\
    (forall (f : nat) pg, pages_ b !! f = Some pg ->
       ps !! f = Some (if decide (f ∈ l.*2) then set_is_dirty false pg else pg)) /\
    (forall (page_id : Z) (f : nat) pg,
       (page_id, f) ∈ l -> pages_ b !! f = Some pg ->
       blocks_ d !! page_id = Some (data_ pg)) /\
    (forall page_id : Z, page_id ∉ l.*1 ->
       blocks_ d !! page_id = blocks_ (disk_manager_ b) !! page_id).
Proof.
  induction l as [|[pid0 f0] l IH]; intros b Hl.
  - exists (pages_ b), (disk_manager_ b). simpl. unfold ret.
    split; [by destruct b|]. split; [done|]. split; [done|].
    split; [|split].
    + done.
    + intros ? ? ? []%elem_of_nil.
    + done.
  - destruct (Hl pid0 f0) as [Hpt0 Hf0]; [by left|].
    destruct (lookup_lt_is_Some_2 (pages_ b) f0 Hf0) as [pg0 Hpg0].
    pose proof (FlushPageImpl_resident pid0 b f0 pg0 Hpt0 Hpg0) as Hflush.
    set (b1 := {| pool_size_ := pool_size_ b;
                  pages_ := <[f0 := set_is_dirty false pg0]> (pages_ b);
                  replacer_ := replacer_ b;
                  free_list_ := free_list_ b;
                  page_table_ := page_table_ b;
                  disk_manager_ := WritePage pid0 (data_ pg0) (disk_manager_ b) |})
      in *.
    destruct (IH b1) as (ps & d & Hrun & Hlen & Hnext & Hps & Hin & Hout).
    { intros pid f Hpf. destruct (Hl pid f) as [? ?]; [by right|].
      simpl. by rewrite length_insert. }
    exists ps, d. split.
    { simpl. unfold bind. rewrite Hflush. exact Hrun. }
    simpl in Hlen, Hnext. rewrite length_insert in Hlen.
    split; [done|]. split; [done|]. split; [|split].
    + intros f pg Hpg. simpl in Hps.
      destruct (decide (f = f0)) as [->|Hne].
      * rewrite (Hps f0 (set_is_dirty false pg0))
          by (by rewrite list_lookup_insert_eq).
        assert (pg = pg0) as -> by congruence.
        rewrite (decide_True (P := f0 ∈ ((pid0, f0) :: l).*2)) by (simpl; by left).
        by case_decide.
      * rewrite (Hps f pg) by (by rewrite list_lookup_insert_ne).
        destruct (decide (f ∈ l.*2)) as [Hm|Hm].
        -- rewrite decide_True; [done|]. simpl. by right.
        -- rewrite decide_False; [done|]. simpl.
           intros [?|?]%elem_of_cons; done.
    + intros pid f pg Hpf Hpg. simpl in Hin, Hout.
      assert (Hcase : (pid, f) ∈ l \/ ((pid, f) = (pid0, f0) /\ pid0 ∉ l.*1)).
      { destruct (decide (pid0 ∈ l.*1)) as [Hm|Hm].
        - apply elem_of_cons in Hpf as [Heq|?]; [|by left]. left.
          injection Heq as -> ->.
          apply list_elem_of_fmap in Hm as ([p g] & Hp & Hpg').
          simpl in Hp. subst p.
          destruct (Hl pid0 g) as [Hg _]; [by right|].
          assert (g = f0) as -> by congruence. done.
        - apply elem_of_cons in Hpf as [Heq|?]; [by right|by left]. }
      destruct Hcase as [Hl'|[Heq Hm]].
      * destruct (decide (f = f0)) as [->|Hne].
        -- assert (pg = pg0) as -> by congruence.
           by rewrite (Hin pid f0 (set_is_dirty false pg0) Hl')
             by (by rewrite list_lookup_insert_eq).
        -- by rewrite (Hin pid f pg Hl') by (by rewrite list_lookup_insert_ne).
      * injection Heq as -> ->. assert (pg = pg0) as -> by congruence.
        rewrite (Hout pid0 Hm). by rewrite lookup_insert_eq.
    + intros pid Hpid. simpl in Hout, Hpid.
      apply not_elem_of_cons in Hpid as [Hne Hpid].
      rewrite (Hout pid Hpid). by rewrite lookup_insert_ne.
Qed.

Lemma FlushAllPagesImpl_entries b :
  FlushAllPagesImpl b = flush_entries (map_to_list (page_table_ b)) b.
Proof. reflexivity. Qed.

Lemma Victim_frame_in_pool fuel b (v : nat) r1 :
  pool_wf b ->
  Victim fuel (replacer_ b) = VictimReturns (Some v) r1 ->
  v < pool_size_ b /\ replacer_wf r1 /\ second_chance r1 /\
  num_pages_ r1 = num_pages_ (replacer_ b) /\
  exists s, rb_ r1 !! v = Some s.
Proof.
  intros Hwf Hv. pose proof (Victim_membership _ _ _ _ Hv) as [Hin Hrest].
  assert (Hlt : v < length (rb_ (replacer_ b))).
  { destruct (rb_ (replacer_ b) !! v) eqn:E; [|done]. by apply lookup_lt_Some in E. }
  rewrite (wf_ring _ (pw_replacer b Hwf)), (pw_ring b Hwf) in Hlt.
  split; [done|]. split; [by eapply Victim_wf, Hv; apply Hwf|].
  split; [by eapply Victim_second_chance, Hv; apply Hwf|].
  split; [by eapply Victim_num_pages|].
  specialize (Hrest v). rewrite decide_True in Hrest by done.
  destruct (rb_ r1 !! v) as [s|]; [by exists s|done].
Qed.

Lemma FetchPageImpl_sound fuel page_id b :
  pool_wf b -> 2 * pool_size_ b <= fuel ->
  (page_table_ b !! page_id = None /\ free_list_ b ≠ [] /\
   FetchPageImpl fuel page_id b = Undefined NullPointer) \/
  (exists p b',
     FetchPageImpl fuel page_id b = Returns p b' /\
     (pool_wf b' /\ pool_size_ b' = pool_size_ b) /\
     (all_clean b ->
      all_clean b' /\
      blocks_ (disk_manager_ b') = blocks_ (disk_manager_ b))).
Proof.
  intros Hwf Hfuel.
  destruct (page_table_ b !! page_id) as [f|] eqn:Hpt.
  - right. pose proof (pw_table b Hwf _ _ Hpt) as Hf.
    destruct (pool_wf_page b f Hwf Hf) as [pg Hpg].
    destruct (pool_wf_slot b f Hwf Hf) as [s Hs].
    destruct (Pin_defined f _ s Hs) as [r' Hpin].
    eexists _, _. split; [by apply (FetchPageImpl_hit fuel page_id b f pg r')|].
    split.
    + apply pool_wf_change; try apply Hwf; try done.
      * by rewrite length_insert.
      * by eapply Pin_wf, Hpin; apply Hwf.
      * by eapply Pin_second_chance, Hpin; apply Hwf.
      * by apply Pin_membership in Hpin as (-> & _).
    + intros Hc. split; [|done].
      apply all_clean_insert; [done|]. simpl. by eapply all_clean_page.
  - destruct (free_list_ b) as [|f0 fl] eqn:Hfl.
    2: { left. split; [done|]. split; [done|].
         apply FetchPageImpl_free_frame; [done|]. by rewrite Hfl. }
    right.
    assert (Hturns : 2 * num_pages_ (replacer_ b) <= fuel)
      by (by rewrite (pw_ring b Hwf)).
    destruct (Victim_enough_fuel (replacer_ b) fuel (pw_replacer b Hwf)
                (pw_policy b Hwf) Hturns) as [[_ Hv]|(_ & v & r1 & Hv)].
    + eexists _, _.
      split; [by apply (FetchPageImpl_no_victim fuel page_id b (replacer_ b))|].
      split; [|intros Hc; split; done].
      apply pool_wf_change; try apply Hwf; done.
    + destruct (Victim_frame_in_pool fuel b v r1 Hwf Hv)
        as (Hlt & Hwf1 & Hsc1 & Hn1 & s & Hs).
      destruct (pool_wf_page b v Hwf Hlt) as [pg Hpg].
      destruct (Pin_defined v _ s Hs) as [r2 Hpin].
      eexists _, _.
      split; [by apply (FetchPageImpl_evict fuel page_id b v r1 r2 pg)|].
      split.
      * apply pool_wf_change; try apply Hwf; try done.
        -- by rewrite length_insert.
        -- by eapply Pin_wf, Hpin.
        -- by eapply Pin_second_chance, Hpin.
        -- apply Pin_membership in Hpin as (-> & _). done.
        -- intros p g [[_ <-]|[_ H]]%lookup_insert_Some; [done|].
           eapply delete_bound, H. apply Hwf.
      * intros Hc. rewrite (all_clean_page b v pg Hc Hpg). simpl.
        split; [|done]. by apply all_clean_insert.
Qed.

Lemma UnpinPageImpl_sound page_id is_dirty b :
  pool_wf b ->
  exists ok b',
    UnpinPageImpl page_id is_dirty b = Returns ok b' /\
    (pool_wf b' /\ pool_size_ b' = pool_size_ b) /\
    (all_clean b ->
     all_clean b' /\
     blocks_ (disk_manager_ b') = blocks_ (disk_manager_ b)).
Proof.
  intros Hwf.
  destruct (page_table_ b !! page_id) as [f|] eqn:Hpt.
  - pose proof (pw_table b Hwf _ _ Hpt) as Hf.
    destruct (pool_wf_page b f Hwf Hf) as [pg Hpg].
    destruct (pool_wf_slot b f Hwf Hf) as [s Hs].
    destruct (Unpin_defined f _ s Hs) as [r' Hun].
    eexists _, _.
    split; [by apply (UnpinPageImpl_resident page_id is_dirty b f pg r')|].
    split.
    + apply pool_wf_change; try apply Hwf; try done.
      * by rewrite length_insert.
      * by eapply Unpin_wf, Hun; apply Hwf.
      * by eapply Unpin_second_chance, Hun; apply Hwf.
      * by apply Unpin_membership in Hun as (-> & _).
    + intros Hc. split; [|done].
      apply all_clean_insert; [done|]. simpl. by eapply all_clean_page.
  - destruct (not_resident_paths page_id is_dirty b Hpt) as (H & _ & _).
    by exists false, b.
Qed.

Lemma FlushPageImpl_sound page_id b :
  pool_wf b ->
  exists ok b',
    FlushPageImpl page_id b = Returns ok b' /\
    (pool_wf b' /\ pool_size_ b' = pool_size_ b) /\
    (all_clean b -> all_clean b').
Proof.
  intros Hwf.
  destruct (page_table_ b !! page_id) as [f|] eqn:Hpt.
  - pose proof (pw_table b Hwf _ _ Hpt) as Hf.
    destruct (pool_wf_page b f Hwf Hf) as [pg Hpg].
    eexists _, _.
    split; [by apply (FlushPageImpl_resident page_id b f pg)|].
    split.
    + apply pool_wf_change; try apply Hwf; try done. by rewrite length_insert.
    + intros Hc. by apply all_clean_insert.
  - destruct (not_resident_paths page_id false b Hpt) as (_ & H & _).
    by exists false, b.
Qed.

Lemma NewPageImpl_sound fuel b :
  pool_wf b -> 2 * pool_size_ b <= fuel ->
  exists res b',
    NewPageImpl fuel b = Returns res b' /\
    (pool_wf b' /\ pool_size_ b' = pool_size_ b) /\
    (all_clean b ->
     all_clean b' /\
     blocks_ (disk_manager_ b') = blocks_ (disk_manager_ b)).
Proof.
  intros Hwf Hfuel.
  destruct (snoc_cases (free_list_ b)) as [Hfl|(fl & f & Hfl)].
  - assert (Hturns : 2 * num_pages_ (replacer_ b) <= fuel)
      by (by rewrite (pw_ring b Hwf)).
    destruct (Victim_enough_fuel (replacer_ b) fuel (pw_replacer b Hwf)
                (pw_policy b Hwf) Hturns) as [[Hsz _]|(Hsz & v & r1 & Hv)].
    + eexists _, b. split; [by apply NewPageImpl_exhausted|]. done.
    + destruct (Victim_frame_in_pool fuel b v r1 Hwf Hv)
        as (Hlt & Hwf1 & Hsc1 & Hn1 & s & Hs).
      destruct (pool_wf_page b v Hwf Hlt) as [pg Hpg].
      eexists _, _.
      split; [by apply (NewPageImpl_evict fuel b v r1 pg)|].
      split.
      * apply pool_wf_change; try apply Hwf; try done.
        -- by rewrite length_insert.
        -- apply emplaced_bound; [done|]. apply delete_bound, Hwf.
      * intros Hc. rewrite (all_clean_page b v pg Hc Hpg). simpl.
        split; [|done]. by apply all_clean_insert.
  - assert (Hf : f < pool_size_ b).
    { pose proof (pw_free b Hwf) as H. rewrite Hfl in H.
      apply Forall_app in H as [_ H]. by inversion H. }
    destruct (pool_wf_page b f Hwf Hf) as [pg Hpg].
    eexists _, _. split; [by apply (NewPageImpl_free fuel b fl f pg)|].
    split.
    + apply pool_wf_change; try apply Hwf; try done.
      * by rewrite length_insert.
      * pose proof (pw_free b Hwf) as H. rewrite Hfl in H.
        by apply Forall_app in H as [H _].
      * apply emplaced_bound; [done|]. apply Hwf.
    + intros Hc. split; [|done]. by apply all_clean_insert.
Qed.

Lemma DeletePageImpl_sound page_id b :
  pool_wf b ->
  exists ok b',
    DeletePageImpl page_id b = Returns ok b' /\
    (pool_wf b' /\ pool_size_ b' = pool_size_ b) /\
    (all_clean b ->
     all_clean b' /\
     blocks_ (disk_manager_ b') = blocks_ (disk_manager_ b)).
Proof.
  intros Hwf.
  destruct (page_table_ b !! page_id) as [f|] eqn:Hpt.
  - pose proof (pw_table b Hwf _ _ Hpt) as Hf.
    destruct (pool_wf_page b f Hwf Hf) as [pg Hpg].
    destruct (decide (pin_count_ pg = 0%Z)) as [Hpin|Hpin].
    + eexists _, _.
      split; [by apply (DeletePageImpl_unpinned page_id b f pg)|].
      split.
      * apply pool_wf_change; try apply Hwf; try done.
        -- by rewrite length_insert.
        -- apply Forall_app. split; [apply Hwf|by apply Forall_singleton].
        -- apply delete_bound, Hwf.
      * intros Hc. split; [|done]. by apply all_clean_insert.
    + exists false, b.
      split; [by apply (DeletePageImpl_pinned page_id b f pg)|]. done.
  - destruct (not_resident_paths page_id false b Hpt) as (_ & _ & H).
    by exists true, b.
Qed.

Lemma FlushAllPagesImpl_sound b :
  pool_wf b ->
  exists b',
    FlushAllPagesImpl b = Returns tt b' /\
    (pool_wf b' /\ pool_size_ b' = pool_size_ b) /\
    (all_clean b -> all_clean b').
Proof.
  intros Hwf. rewrite FlushAllPagesImpl_entries.
  destruct (flush_entries_spec (map_to_list (page_table_ b)) b)
    as (ps & d & Hrun & Hlen & _ & Hps & _ & _).
  { intros pid f Hin%elem_of_map_to_list. split; [done|].
    rewrite (pw_pages b Hwf). by eapply pw_table. }
  eexists. split; [exact Hrun|]. split.
  - apply pool_wf_change; try apply Hwf; done.
  - intros Hc. apply Forall_lookup_2. intros f pg' Hpg'.
    destruct (lookup_lt_is_Some_2 (pages_ b) f) as [pg Hpg].
    { rewrite <- Hlen. by apply lookup_lt_Some in Hpg'. }
    simpl in Hpg'. rewrite (Hps f pg Hpg) in Hpg'. injection Hpg' as <-.
    case_decide; [done|]. by eapply all_clean_page.
Qed.

(** ** Well-formedness of the example pools *)

Lemma one_slot_wf s (z : Z) :
  (0 <= chances s)%Z -> z = (if is_in s then 1 else 0)%Z ->
  replacer_wf (mkClockReplacer 1 0 [s] z).
Proof.
  intros Hc ->. split; simpl; try done; try lia.
  - destruct (is_in s); reflexivity.
  - intros [|j] x; simpl; [by intros [= <-]|done].
Defined.

Lemma one_slot_second_chance s (z : Z) :
  (chances s <= 1)%Z -> second_chance (mkClockReplacer 1 0 [s] z).
Proof. intros Hc [|j] x; simpl; [by intros [= <-]|done]. Defined.

Lemma one_frame_pool_wf pg s z fl d :
  (0 <= chances s <= 1)%Z -> z = (if is_in s then 1 else 0)%Z ->
  Forall (fun f => f < 1) fl ->
  pool_wf (mkBufferPoolManager 1 [pg] (mkClockReplacer 1 0 [s] z) fl
             {[ 0%Z := 0 ]} d).
Proof.
  intros Hc Hz Hfl. split; simpl; try done.
  - apply one_slot_wf; [lia|done].
  - apply one_slot_second_chance. lia.
  - intros p f [_ <-]%lookup_singleton_Some. lia.
Defined.

Lemma pool_released_wf : pool_wf pool_released.
Proof. apply one_frame_pool_wf; [simpl; lia|reflexivity|constructor]. Defined.

Lemma pool_pinned_wf : pool_wf pool_pinned.
Proof. apply one_frame_pool_wf; [simpl; lia|reflexivity|constructor]. Defined.

Lemma pool_dirty_wf : pool_wf pool_dirty.
Proof. apply one_frame_pool_wf; [simpl; lia|reflexivity|constructor]. Defined.

Lemma pool_released_clean : all_clean pool_released.
Proof. repeat constructor. Defined.

(** ** Guarantees of the calls *)

(** X6. Every call on a well-formed pool, given two turns of fuel for the
    replacer, returns and leaves the pool well-formed, with one exception:
    [FetchPage] of a page that is not resident while the free list is not
    empty, which dereferences a null pointer.  No call indexes outside
    [pages_] or the replacer's ring, and none loops for ever. *)
Theorem pool_calls_are_memory_safe (fuel : nat) (c : call) (b : BufferPoolManager) :
  pool_wf b ->
  2 * pool_size_ b <= fuel ->
  match run fuel c b with
  | Returns _ b' => pool_wf b'
  | Undefined NullPointer =>
      exists page_id, c = CallFetchPage page_id /\
                      page_table_ b !! page_id = None /\ free_list_ b ≠ []
  | Undefined OutOfRange => False
  | Spins => False
  end.
Proof.
  intros Hwf Hfuel. destruct c as [pid|pid d|pid| |pid|]; unfold run, bind.
  - destruct (FetchPageImpl_sound fuel pid b Hwf Hfuel)
      as [(Hpt & Hfl & ->)|(p & b' & -> & [Hwf' _] & _)]; [by exists pid|done].
  - by destruct (UnpinPageImpl_sound pid d b Hwf) as (ok & b' & -> & [Hwf' _] & _).
  - by destruct (FlushPageImpl_sound pid b Hwf) as (ok & b' & -> & [Hwf' _] & _).
  - by destruct (NewPageImpl_sound fuel b Hwf Hfuel) as (res & b' & -> & [Hwf' _] & _).
  - by destruct (DeletePageImpl_sound pid b Hwf) as (ok & b' & -> & [Hwf' _] & _).
  - by destruct (FlushAllPagesImpl_sound b Hwf) as (b' & -> & [Hwf' _] & _).
Qed.

Lemma pool_calls_are_memory_safe_witness :
  pool_wf pool_released /\ 2 * pool_size_ pool_released <= 2 /\
  match run 2 CallNewPage pool_released with
  | Returns _ b' => pool_wf b'
  | Undefined NullPointer =>
      exists page_id, CallNewPage = CallFetchPage page_id /\
                      page_table_ pool_released !! page_id = None /\
                      free_list_ pool_released ≠ []
  | Undefined OutOfRange => False
  | Spins => False
  end.
Proof.
  split; [exact pool_released_wf|]. split; [simpl; lia|].
  apply (pool_calls_are_memory_safe 2 CallNewPage pool_released pool_released_wf).
  simpl. lia.
Defined.

(** X7. A call never marks a frame dirty, and apart from [FlushPage] and
    [FlushAllPages] it leaves the blocks on disk as they were: with every
    frame clean, what an eviction replaces is dropped without a write. *)
Theorem clean_pool_stays_clean
    (fuel : nat) (c : call) (b b' : BufferPoolManager) :
  pool_wf b ->
  all_clean b ->
  2 * pool_size_ b <= fuel ->
  run fuel c b = Returns tt b' ->
  all_clean b' /\
  (flushes c = false ->
   blocks_ (disk_manager_ b') = blocks_ (disk_manager_ b)).
Proof.
  intros Hwf Hc Hfuel. destruct c as [pid|pid d|pid| |pid|]; unfold run, bind.
  - destruct (FetchPageImpl_sound fuel pid b Hwf Hfuel)
      as [(_ & _ & ->)|(p & b1 & -> & _ & H)]; [done|].
    intros [= <-]. destruct (H Hc). done.
  - destruct (UnpinPageImpl_sound pid d b Hwf) as (ok & b1 & -> & _ & H).
    intros [= <-]. destruct (H Hc). done.
  - destruct (FlushPageImpl_sound pid b Hwf) as (ok & b1 & -> & _ & H).
    intros [= <-]. split; [by apply H|done].
  - destruct (NewPageImpl_sound fuel b Hwf Hfuel) as (res & b1 & -> & _ & H).
    intros [= <-]. destruct (H Hc). done.
  - destruct (DeletePageImpl_sound pid b Hwf) as (ok & b1 & -> & _ & H).
    intros [= <-]. destruct (H Hc). done.
  - destruct (FlushAllPagesImpl_sound b Hwf) as (b1 & -> & _ & H).
    intros [= <-]. split; [by apply H|done].
Qed.

Lemma clean_pool_stays_clean_witness :
  pool_wf pool_released /\ all_clean pool_released /\
  2 * pool_size_ pool_released <= 2 /\
  run 2 CallNewPage pool_released = Returns tt pool_replaced /\
  all_clean pool_replaced /\
  (flushes CallNewPage = false ->
   blocks_ (disk_manager_ pool_replaced) = blocks_ (disk_manager_ pool_released)).
Proof.
  split; [exact pool_released_wf|]. split; [exact pool_released_clean|].
  split; [simpl; lia|]. split; [vm_compute; reflexivity|].
  apply (clean_pool_stays_clean 2 CallNewPage pool_released pool_replaced
           pool_released_wf pool_released_clean); [simpl; lia|].
  vm_compute. reflexivity.
Defined.







(** X9. [FlushAllPages] writes every resident page to disk under its own
    page id with the bytes of its frame and clears that frame's dirty flag;
    page ids that are not resident keep their block, and the page table, the
    free list and the replacer are untouched. *)
Theorem FlushAllPages_writes_every_resident_page (b : BufferPoolManager) :
  (forall (page_id : Z) (f : nat),
      page_table_ b !! page_id = Some f -> f < length (pages_ b)) ->
  exists b',
    FlushAllPagesImpl b = Returns tt b' /\
    page_table_ b' = page_table_ b /\
    free_list_ b' = free_list_ b /\
    replacer_ b' = replacer_ b /\
    (forall (page_id : Z) (f : nat) pg,
       page_table_ b !! page_id = Some f -> pages_ b !! f = Some pg ->
       blocks_ (disk_manager_ b') !! page_id = Some (data_ pg) /\
       pages_ b' !! f = Some (set_is_dirty false pg)) /\
    (forall page_id : Z,
       page_table_ b !! page_id = None ->
       blocks_ (disk_manager_ b') !! page_id
       = blocks_ (disk_manager_ b) !! page_id).
Proof.
  intros Hrange. rewrite FlushAllPagesImpl_entries.
  destruct (flush_entries_spec (map_to_list (page_table_ b)) b)
    as (ps & d & Hrun & _ & _ & Hps & Hin & Hout).
  { intros pid f Hpf%elem_of_map_to_list. split; [done|]. by eapply Hrange. }
  eexists. split; [exact Hrun|]. simpl. do 3 (split; [done|]). split.
  - intros pid f pg Hpt Hpg.
    assert (Hpf : (pid, f) ∈ map_to_list (page_table_ b))
      by (by apply elem_of_map_to_list).
    split; [by eapply Hin|]. rewrite (Hps f pg Hpg).
    rewrite decide_True; [done|].
    apply list_elem_of_fmap. by exists (pid, f).
  - intros pid Hpt. apply Hout.
    intros ([p f] & Hp & Hpf%elem_of_map_to_list)%list_elem_of_fmap.
    simpl in Hp. subst p. unfold frame_id_t in *. congruence.
Qed.

Lemma FlushAllPages_writes_every_resident_page_witness :
  exists b',
    FlushAllPagesImpl pool_dirty = Returns tt b' /\
    page_table_ b' = page_table_ pool_dirty /\
    free_list_ b' = free_list_ pool_dirty /\
    replacer_ b' = replacer_ pool_dirty /\
    (forall (page_id : Z) (f : nat) pg,
       page_table_ pool_dirty !! page_id = Some f ->
       pages_ pool_dirty !! f = Some pg ->
       blocks_ (disk_manager_ b') !! page_id = Some (data_ pg) /\
       pages_ b' !! f = Some (set_is_dirty false pg)) /\
    (forall page_id : Z,
       page_table_ pool_dirty !! page_id = None ->
       blocks_ (disk_manager_ b') !! page_id
       = blocks_ (disk_manager_ pool_dirty) !! page_id).
Proof.
  apply (FlushAllPages_writes_every_resident_page pool_dirty).
  simpl. intros p f [_ <-]%lookup_singleton_Some. lia.
Defined.

(** X10. [FetchPage] of a resident page returns its frame, raises the pin
    count by one and removes the frame from the replacer; the page table, the
    free list and the disk manager are untouched: no read is made. *)
Theorem FetchPage_of_resident_page_pins_it
    (fuel : nat) (page_id : Z) (b : BufferPoolManager)
    (f : nat) (pg : Page) (frame_stat : FrameStat) :
  page_table_ b !! page_id = Some f ->
  pages_ b !! f = Some pg ->
  rb_ (replacer_ b) !! f = Some frame_stat ->
  exists r',
    Pin f (replacer_ b) = Some r' /\
    FetchPageImpl fuel page_id b =
    Returns (Some f)
      {| pool_size_ := pool_size_ b;
         pages_ := <[f := mkPage (data_ pg) (page_id_ pg)
                            (pin_count_ pg + 1)%Z (is_dirty_ pg)]> (pages_ b);
         replacer_ := r';
         free_list_ := free_list_ b;
         page_table_ := page_table_ b;
         disk_manager_ := disk_manager_ b |}.
Proof.
  intros Hpt Hpg Hs. destruct (Pin_defined f _ _ Hs) as [r' Hpin].
  exists r'. split; [done|]. by apply FetchPageImpl_hit.
Qed.

Lemma FetchPage_of_resident_page_pins_it_witness :
  exists r',
    Pin 0 (replacer_ pool_released) = Some r' /\
    FetchPageImpl 2 0%Z pool_released =
    Returns (Some 0)
      {| pool_size_ := 1;
         pages_ := [mkPage zeroed 0%Z 1%Z false];
         replacer_ := r';
         free_list_ := [];
         page_table_ := page_table_ pool_released;
         disk_manager_ := disk_manager_ pool_released |}.
Proof.
  apply (FetchPage_of_resident_page_pins_it 2 0%Z pool_released 0
           (mkPage zeroed 0%Z 0%Z false) (mkFrameStat true 1)); reflexivity.
Defined.

(** X11. When the page is not resident and the free list is empty but the
    replacer is not, [FetchPage] succeeds on a frame that was in the
    replacer: afterwards the page is in the page table at that frame, the
    frame holds the page's block as it is on disk with pin count 1 and a
    clear dirty flag, and the frame is out of the replacer; the page that the
    frame held has left the page table. *)
Theorem FetchPage_miss_loads_page_into_victim
    (fuel : nat) (page_id : Z) (b : BufferPoolManager) :
  pool_wf b ->
  2 * pool_size_ b <= fuel ->
  page_table_ b !! page_id = None ->
  free_list_ b = [] ->
  Size (replacer_ b) ≠ 0%Z ->
  exists (v : nat) old b',
    FetchPageImpl fuel page_id b = Returns (Some v) b' /\
    is_in <$> rb_ (replacer_ b) !! v = Some true /\
    pages_ b !! v = Some old /\
    is_in <$> rb_ (replacer_ b') !! v = Some false /\
    page_table_ b' !! page_id = Some v /\
    pages_ b' !! v =
      Some (mkPage (default zeroed (blocks_ (disk_manager_ b') !! page_id))
              page_id 1 false) /\
    (page_id_ old ≠ page_id -> page_table_ b' !! page_id_ old = None).
Proof.
  intros Hwf Hfuel Hpt Hfl Hsz.
  assert (Hturns : 2 * num_pages_ (replacer_ b) <= fuel)
    by (by rewrite (pw_ring b Hwf)).
  destruct (Victim_enough_fuel (replacer_ b) fuel (pw_replacer b Hwf)
              (pw_policy b Hwf) Hturns) as [[? _]|(_ & v & r1 & Hv)]; [done|].
  destruct (Victim_frame_in_pool fuel b v r1 Hwf Hv)
    as (Hlt & Hwf1 & Hsc1 & Hn1 & s & Hs).
  destruct (pool_wf_page b v Hwf Hlt) as [pg Hpg].
  destruct (Pin_defined v _ s Hs) as [r2 Hpin].
  pose proof (Victim_membership _ _ _ _ Hv) as [Hin _].
  pose proof (Pin_membership _ _ _ Hpin) as (_ & _ & _ & Hout).
  exists v, pg. eexists.
  split; [by apply (FetchPageImpl_evict fuel page_id b v r1 r2 pg)|].
  simpl. split; [done|]. split; [done|].
  split; [rewrite Hout; by case_decide|].
  split; [by rewrite lookup_insert_eq|].
  split.
  - rewrite list_lookup_insert_eq by (by apply lookup_lt_Some in Hpg).
    by destruct (is_dirty_ pg).
  - intros Hne. rewrite lookup_insert_ne by done. by rewrite lookup_delete_eq.
Qed.

Lemma FetchPage_miss_loads_page_into_victim_witness :
  pool_wf pool_released /\
  exists (v : nat) old b',
    FetchPageImpl 2 7%Z pool_released = Returns (Some v) b' /\
    is_in <$> rb_ (replacer_ pool_released) !! v = Some true /\
    pages_ pool_released !! v = Some old /\
    is_in <$> rb_ (replacer_ b') !! v = Some false /\
    page_table_ b' !! 7%Z = Some v /\
    pages_ b' !! v =
      Some (mkPage (default zeroed (blocks_ (disk_manager_ b') !! 7%Z))
              7%Z 1 false) /\
    (page_id_ old ≠ 7%Z -> page_table_ b' !! page_id_ old = None).
Proof.
  split; [exact pool_released_wf|].
  apply (FetchPage_miss_loads_page_into_victim 2 7%Z pool_released
           pool_released_wf); [simpl; lia|reflexivity|reflexivity|].
  simpl. lia.
Defined.

(** X12. While the free list is not empty [NewPage] takes its last frame and
    leaves the replacer alone: it allocates one page id, resets the frame to
    that id with zeroed bytes, and emplaces the id in the page table; no
    block of the disk is read or written. *)
Theorem NewPage_takes_last_free_frame
    (fuel : nat) (b : BufferPoolManager) (fl : list nat) (f : nat) (pg : Page) :
  free_list_ b = fl ++ [f] ->
  pages_ b !! f = Some pg ->
  NewPageImpl fuel b =
  Returns (Some (next_page_id_ (disk_manager_ b)), Some f)
    {| pool_size_ := pool_size_ b;
       pages_ := <[f := mkPage zeroed (next_page_id_ (disk_manager_ b)) 0 false]>
                   (pages_ b);
       replacer_ := replacer_ b;
       free_list_ := fl;
       page_table_ := emplaced (next_page_id_ (disk_manager_ b)) f (page_table_ b);
       disk_manager_ :=
         mkDiskManager (next_page_id_ (disk_manager_ b) + 1)%Z
           (blocks_ (disk_manager_ b))
           (calls_ (disk_manager_ b)
              ++ [CallAllocatePage (next_page_id_ (disk_manager_ b))]) |}.
Proof. intros Hfl Hpg. by apply (NewPageImpl_free fuel b fl f pg). Qed.

Lemma NewPage_takes_last_free_frame_witness :
  NewPageImpl 6 pool3 =
  Returns (Some 0%Z, Some 2)
    {| pool_size_ := 3;
       pages_ := <[2 := mkPage zeroed 0%Z 0 false]> (pages_ pool3);
       replacer_ := replacer_ pool3;
       free_list_ := [0; 1];
       page_table_ := emplaced 0%Z 2 (page_table_ pool3);
       disk_manager_ := mkDiskManager (0 + 1)%Z ∅ ([] ++ [CallAllocatePage 0%Z]) |}.
Proof.
  apply (NewPage_takes_last_free_frame 6 pool3 [0; 1] 2 Page_new); reflexivity.
Defined.

(** X13. With an empty free list and a replacer that is not empty,
    [NewPage] succeeds on a frame that was in the replacer: the frame is
    reset to the new page id and leaves the replacer, the page it held
    leaves the page table, and that page's bytes are written to disk under
    its id exactly when its dirty flag was set. *)
Theorem NewPage_evicts_and_writes_back_dirty
    (fuel : nat) (b : BufferPoolManager) :
  pool_wf b ->
  2 * pool_size_ b <= fuel ->
  free_list_ b = [] ->
  Size (replacer_ b) ≠ 0%Z ->
  exists (v : nat) old b',
    NewPageImpl fuel b =
      Returns (Some (next_page_id_ (disk_manager_ b)), Some v) b' /\
    is_in <$> rb_ (replacer_ b) !! v = Some true /\
    pages_ b !! v = Some old /\
    is_in <$> rb_ (replacer_ b') !! v = Some false /\
    pages_ b' !! v =
      Some (mkPage zeroed (next_page_id_ (disk_manager_ b)) 0 false) /\
    (page_id_ old ≠ next_page_id_ (disk_manager_ b) ->
     page_table_ b' !! page_id_ old = None) /\
    blocks_ (disk_manager_ b') =
      (if is_dirty_ old
       then <[page_id_ old := data_ old]> (blocks_ (disk_manager_ b))
       else blocks_ (disk_manager_ b)).
Proof.
  intros Hwf Hfuel Hfl Hsz.
  assert (Hturns : 2 * num_pages_ (replacer_ b) <= fuel)
    by (by rewrite (pw_ring b Hwf)).
  destruct (Victim_enough_fuel (replacer_ b) fuel (pw_replacer b Hwf)
              (pw_policy b Hwf) Hturns) as [[? _]|(_ & v & r1 & Hv)]; [done|].
  destruct (Victim_frame_in_pool fuel b v r1 Hwf Hv)
    as (Hlt & Hwf1 & Hsc1 & Hn1 & s & Hs).
  destruct (pool_wf_page b v Hwf Hlt) as [pg Hpg].
  pose proof (Victim_membership _ _ _ _ Hv) as [Hin Hout].
  exists v, pg. eexists.
  split; [by apply (NewPageImpl_evict fuel b v r1 pg)|].
  simpl. split; [done|]. split; [done|].
  split; [rewrite Hout; by case_decide|].
  split; [by rewrite list_lookup_insert_eq by (by apply lookup_lt_Some in Hpg)|].
  split.
  - intros Hne. unfold emplaced. case_match.
    + by rewrite lookup_delete_eq.
    + rewrite lookup_insert_ne by done. by rewrite lookup_delete_eq.
  - by destruct (is_dirty_ pg).
Qed.

Lemma NewPage_evicts_and_writes_back_dirty_witness :
  pool_wf pool_dirty /\
  exists (v : nat) old b',
    NewPageImpl 2 pool_dirty =
      Returns (Some (next_page_id_ (disk_manager_ pool_dirty)), Some v) b' /\
    is_in <$> rb_ (replacer_ pool_dirty) !! v = Some true /\
    pages_ pool_dirty !! v = Some old /\
    is_in <$> rb_ (replacer_ b') !! v = Some false /\
    pages_ b' !! v =
      Some (mkPage zeroed (next_page_id_ (disk_manager_ pool_dirty)) 0 false) /\
    (page_id_ old ≠ next_page_id_ (disk_manager_ pool_dirty) ->
     page_table_ b' !! page_id_ old = None) /\
    blocks_ (disk_manager_ b') =
      (if is_dirty_ old
       then <[page_id_ old := data_ old]> (blocks_ (disk_manager_ pool_dirty))
       else blocks_ (disk_manager_ pool_dirty)).
Proof.
  split; [exact pool_dirty_wf|].
  apply (NewPage_evicts_and_writes_back_dirty 2 pool_dirty pool_dirty_wf);
    [simpl; lia|reflexivity|]. simpl. lia.
Defined.

(** X14. For a page that is not resident [UnpinPage] and [FlushPage] return
    false and [DeletePage] returns true, and each leaves the pool, the disk
    manager included, exactly as it was. *)
Theorem calls_on_absent_page_change_nothing
    (page_id : Z) (is_dirty : bool) (b : BufferPoolManager) :
  page_table_ b !! page_id = None ->
  UnpinPageImpl page_id is_dirty b = Returns false b /\
  FlushPageImpl page_id b = Returns false b /\
  DeletePageImpl page_id b = Returns true b.
Proof. apply not_resident_paths. Qed.

Lemma calls_on_absent_page_change_nothing_witness :
  UnpinPageImpl 7%Z true pool_pinned = Returns false pool_pinned /\
  FlushPageImpl 7%Z pool_pinned = Returns false pool_pinned /\
  DeletePageImpl 7%Z pool_pinned = Returns true pool_pinned.
Proof.
  apply (calls_on_absent_page_change_nothing 7%Z true pool_pinned). reflexivity.
Defined.

(** X15. [UnpinPage] of a resident page whose pin count is 0 or less
    succeeds, and the page can then not be deleted: [DeletePage] tests the
    pin count against 0, not for being positive. *)
Theorem UnpinPage_below_zero_blocks_DeletePage
    (page_id : Z) (is_dirty : bool) (b : BufferPoolManager)
    (f : nat) (pg : Page) (frame_stat : FrameStat) :
  page_table_ b !! page_id = Some f ->
  pages_ b !! f = Some pg ->
  rb_ (replacer_ b) !! f = Some frame_stat ->
  (pin_count_ pg <= 0)%Z ->
  exists b1,
    UnpinPageImpl page_id is_dirty b = Returns true b1 /\
    DeletePageImpl page_id b1 = Returns false b1.
Proof.
  intros Hpt Hpg Hs Hpin. destruct (Unpin_defined f _ _ Hs) as [r' Hun].
  eexists. split; [by apply (UnpinPageImpl_resident page_id is_dirty b f pg r')|].
  apply (DeletePageImpl_pinned page_id _ f (add_pin_count (-1) pg)); simpl;
    [done| |lia].
  by rewrite list_lookup_insert_eq by (by apply lookup_lt_Some in Hpg).
Qed.

Lemma UnpinPage_below_zero_blocks_DeletePage_witness :
  exists b1,
    UnpinPageImpl 0%Z false pool_new_page = Returns true b1 /\
    DeletePageImpl 0%Z b1 = Returns false b1.
Proof.
  apply (UnpinPage_below_zero_blocks_DeletePage 0%Z false pool_new_page 0
           (mkPage zeroed 0%Z 0%Z false) FrameStat_default);
    [reflexivity|reflexivity|reflexivity|simpl; lia].
Defined.

(** X16. [DeletePage] of a resident page with pin count 0 returns true and
    takes the page out of the page table, and the next [NewPage] is served
    from the very frame it freed, leaving the free list as it was before the
    deletion. *)
Theorem DeletePage_then_NewPage_reuses_frame
    (fuel : nat) (page_id : Z) (b : BufferPoolManager) (f : nat) (pg : Page) :
  page_table_ b !! page_id = Some f ->
  pages_ b !! f = Some pg ->
  pin_count_ pg = 0%Z ->
  exists b1 b2,
    DeletePageImpl page_id b = Returns true b1 /\
    page_table_ b1 !! page_id = None /\
    pages_ b1 !! f = Some (mkPage zeroed INVALID_PAGE_ID 0 false) /\
    NewPageImpl fuel b1 =
      Returns (Some (next_page_id_ (disk_manager_ b)), Some f) b2 /\
    free_list_ b2 = free_list_ b.
Proof.
  intros Hpt Hpg Hpin.
  assert (Hlt : f < length (pages_ b)) by (by apply lookup_lt_Some in Hpg).
  set (b1 := {| pool_size_ := pool_size_ b;
                pages_ := <[f := ResetAll INVALID_PAGE_ID pg]> (pages_ b);
                replacer_ := replacer_ b;
                free_list_ := free_list_ b ++ [f];
                page_table_ := delete page_id (page_table_ b);
                disk_manager_ := disk_manager_ b |}).
  exists b1. eexists.
  split; [by apply (DeletePageImpl_unpinned page_id b f pg)|].
  split; [simpl; by rewrite lookup_delete_eq|].
  split; [simpl; by rewrite list_lookup_insert_eq|].
  split;
    [ apply (NewPageImpl_free fuel b1 (free_list_ b) f
               (ResetAll INVALID_PAGE_ID pg));
        simpl; [done|by rewrite list_lookup_insert_eq]
    | reflexivity ].
Qed.

Lemma DeletePage_then_NewPage_reuses_frame_witness :
  exists b1 b2,
    DeletePageImpl 0%Z pool_released = Returns true b1 /\
    page_table_ b1 !! 0%Z = None /\
    pages_ b1 !! 0 = Some (mkPage zeroed INVALID_PAGE_ID 0 false) /\
    NewPageImpl 2 b1 =
      Returns (Some (next_page_id_ (disk_manager_ pool_released)), Some 0) b2 /\
    free_list_ b2 = free_list_ pool_released.
Proof.
  apply (DeletePage_then_NewPage_reuses_frame 2 0%Z pool_released 0
           (mkPage zeroed 0%Z 0%Z false)); reflexivity.
Defined.

(** X17. [FlushPage] of a resident page, pinned or not, returns true, clears
    the frame's dirty flag and leaves its bytes on disk under the requested
    page id, where [ReadPage] finds them; flushing again returns true and
    changes neither the frames nor the blocks. *)
Theorem FlushPage_puts_frame_bytes_on_disk
    (page_id : Z) (b : BufferPoolManager) (f : nat) (pg : Page) :
  page_table_ b !! page_id = Some f ->
  pages_ b !! f = Some pg ->
  exists b1 b2,
    FlushPageImpl page_id b = Returns true b1 /\
    fst (ReadPage page_id (disk_manager_ b1)) = data_ pg /\
    pages_ b1 = <[f := mkPage (data_ pg) (page_id_ pg) (pin_count_ pg) false]>
                  (pages_ b) /\
    replacer_ b1 = replacer_ b /\
    page_table_ b1 = page_table_ b /\
    free_list_ b1 = free_list_ b /\
    FlushPageImpl page_id b1 = Returns true b2 /\
    pages_ b2 = pages_ b1 /\
    blocks_ (disk_manager_ b2) = blocks_ (disk_manager_ b1).
Proof.
  intros Hpt Hpg.
  assert (Hlt : f < length (pages_ b)) by (by apply lookup_lt_Some in Hpg).
  eexists _, _. split; [by apply (FlushPageImpl_resident page_id b f pg)|].
  simpl. split; [by rewrite lookup_insert_eq|]. do 4 (split; [done|]).
  split.
  - by apply (FlushPageImpl_resident page_id _ f (set_is_dirty false pg));
      simpl; [|rewrite list_lookup_insert_eq].
  - simpl. split; [by rewrite list_insert_insert_eq|].
    by rewrite insert_insert_eq.
Qed.

Lemma FlushPage_puts_frame_bytes_on_disk_witness :
  exists b1 b2,
    FlushPageImpl 0%Z pool_dirty = Returns true b1 /\
    fst (ReadPage 0%Z (disk_manager_ b1)) = zeroed /\
    pages_ b1 = <[0 := mkPage zeroed 0%Z 0%Z false]> (pages_ pool_dirty) /\
    replacer_ b1 = replacer_ pool_dirty /\
    page_table_ b1 = page_table_ pool_dirty /\
    free_list_ b1 = free_list_ pool_dirty /\
    FlushPageImpl 0%Z b1 = Returns true b2 /\
    pages_ b2 = pages_ b1 /\
    blocks_ (disk_manager_ b2) = blocks_ (disk_manager_ b1).
Proof.
  apply (FlushPage_puts_frame_bytes_on_disk 0%Z pool_dirty 0
           (mkPage zeroed 0%Z 0%Z true)); reflexivity.
Defined.

(** X18. [FetchPage] followed by [UnpinPage] on a resident page leaves every
    frame, the page table, the free list and the disk manager as they were,
    and leaves the page's frame in the replacer with a fresh chance, whatever
    its pin count is and whether or not it was in the replacer before. *)
Theorem FetchPage_then_UnpinPage_on_resident_page
    (fuel : nat) (page_id : Z) (is_dirty : bool) (b : BufferPoolManager)
    (f : nat) (pg : Page) (frame_stat : FrameStat) :
  page_table_ b !! page_id = Some f ->
  pages_ b !! f = Some pg ->
  rb_ (replacer_ b) !! f = Some frame_stat ->
  exists b1 b2,
    FetchPageImpl fuel page_id b = Returns (Some f) b1 /\
    UnpinPageImpl page_id is_dirty b1 = Returns true b2 /\
    pages_ b2 = pages_ b /\
    rb_ (replacer_ b2) = <[f := mkFrameStat true 1]> (rb_ (replacer_ b)) /\
    page_table_ b2 = page_table_ b /\
    free_list_ b2 = free_list_ b /\
    disk_manager_ b2 = disk_manager_ b.
Proof.
  intros Hpt Hpg Hs.
  assert (Hlt : f < length (pages_ b)) by (by apply lookup_lt_Some in Hpg).
  assert (Hlts : f < length (rb_ (replacer_ b))) by (by apply lookup_lt_Some in Hs).
  destruct (Pin_defined f _ _ Hs) as [r1 Hpin].
  assert (Hr1 : exists s1, rb_ r1 !! f = Some s1 /\ is_in s1 = false /\
                           <[f := mkFrameStat true 1]> (rb_ r1)
                           = <[f := mkFrameStat true 1]> (rb_ (replacer_ b))).
  { unfold Pin, frame_id_t in Hpin. rewrite Hs in Hpin.
    destruct (is_in frame_stat) eqn:Hin; injection Hpin as <-; simpl.
    - eexists. rewrite list_lookup_insert_eq by done.
      split; [done|]. split; [done|]. by rewrite list_insert_insert_eq.
    - by exists frame_stat. }
  destruct Hr1 as (s1 & Hs1 & Hin1 & Hrb).
  assert (Hun : Unpin f r1 =
                Some (set_real_size (set_stat r1 f (mkFrameStat true 1))
                        (size_t_wrap (real_size_ r1 + 1)))).
  { unfold Unpin, frame_id_t. by rewrite Hs1, Hin1. }
  eexists _, _. split; [by apply (FetchPageImpl_hit fuel page_id b f pg r1)|].
  split.
  { apply (UnpinPageImpl_resident page_id is_dirty _ f (add_pin_count 1 pg));
      simpl; [done|by rewrite list_lookup_insert_eq|exact Hun]. }
  simpl. split; [|done].
  rewrite list_insert_insert_eq. apply list_insert_id. rewrite Hpg. f_equal.
  destruct pg as [dat pid pin dirty]. unfold add_pin_count. simpl. f_equal. lia.
Qed.

Lemma FetchPage_then_UnpinPage_on_resident_page_witness :
  exists b1 b2,
    FetchPageImpl 2 0%Z pool_pinned = Returns (Some 0) b1 /\
    UnpinPageImpl 0%Z false b1 = Returns true b2 /\
    pages_ b2 = pages_ pool_pinned /\
    rb_ (replacer_ b2) = <[0 := mkFrameStat true 1]> (rb_ (replacer_ pool_pinned)) /\
    page_table_ b2 = page_table_ pool_pinned /\
    free_list_ b2 = free_list_ pool_pinned /\
    disk_manager_ b2 = disk_manager_ pool_pinned.
Proof.
  apply (FetchPage_then_UnpinPage_on_resident_page 2 0%Z false pool_pinned 0
           (mkPage zeroed 0%Z 1%Z false) FrameStat_default); reflexivity.
Defined.

(** ** Agreement of the page table, the free list and the frames *)










